(** * Brand and BOI alignment pipeline (src/main.py)

    A shallow embedding of the five-step reconciliation pipeline of
    [main.py] together with the properties its specification states.

    Text.  A Python [str] is embedded as a Rocq [string] whose characters
    are read as code points 0..255, so the embedding is exact for text in
    that range; comparison of characters is comparison of code points, as
    in Python.

    Cells.  A cell of a table is a piece of text or a missing value
    ([NaN]/[None], which pandas treats alike under [isna]).  A column is
    a list of cells and carries no dtype of its own: a column that holds a
    text value is a text column (object dtype) for pandas, whereas a column
    without any text value may be a numeric one, on which the text
    accessor [.str] and the sum with a piece of text raise.  The stages
    that use either are therefore stated for columns that hold a text
    value ([text_column]).

    Tables.  A [DataFrame] is the ordered list of its labelled columns.
    Selecting a column by label takes the column with that label; pandas
    answers with a frame, not a column, when the label occurs twice, so
    the stages that select a column of a frame an earlier stage has built
    are stated for frames whose labels are pairwise distinct
    ([distinct_labels]), and the row check for rows whose fields are
    ([distinct_fields]). *)

From Stdlib Require Import String Ascii List Bool Arith Lia.
From Stdlib Require Import Sorting.Sorted Sorting.Permutation OrderedTypeEx.
Import ListNotations.
Open Scope string_scope.
Open Scope list_scope.

(** ** Exceptions and results *)

Inductive exn : Type :=
| KeyError (what : string)
| ValueError (what : string).

Inductive result (A : Type) : Type :=
| Ok (a : A)
| Raise (e : exn).
Arguments Ok {A} a.
Arguments Raise {A} e.

Definition bind {A B : Type} (r : result A) (k : A -> result B) : result B :=
  match r with
  | Ok a => k a
  | Raise e => Raise e
  end.

Notation "x <- r ;; k" := (bind r (fun x => k))
  (at level 61, r at next level, right associativity).

(** ** Python text primitives *)

Module Py.

(** [str.isspace] on one character, for code points below 256:
    TAB, LF, VT, FF, CR, FS, GS, RS, US, SPACE, NEL and NBSP.
    The regular expression class [\s] on [str] patterns is the same set. *)
Definition isspace (c : ascii) : bool :=
  match nat_of_ascii c with
  | 9 | 10 | 11 | 12 | 13 | 28 | 29 | 30 | 31 | 32 | 133 | 160 => true
  | _ => false
  end.

(** [s.split(sep)] for a one-character separator: never the empty list. *)
Fixpoint split (sep : ascii) (s : string) : list string :=
  match s with
  | EmptyString => [EmptyString]
  | String c r =>
      if Ascii.eqb c sep then EmptyString :: split sep r
      else match split sep r with
           | t :: ts => String c t :: ts
           | [] => [String c EmptyString]
           end
  end.

(** [sep.join(parts)] *)
Fixpoint join (sep : ascii) (parts : list string) : string :=
  match parts with
  | [] => EmptyString
  | [t] => t
  | t :: ts => t ++ String sep (join sep ts)
  end.

(** Dropping the leading, resp. trailing, characters that satisfy [p]. *)
Fixpoint lstrip_by (p : ascii -> bool) (s : string) : string :=
  match s with
  | EmptyString => EmptyString
  | String c r => if p c then lstrip_by p r else s
  end.

Fixpoint rstrip_by (p : ascii -> bool) (s : string) : string :=
  match s with
  | EmptyString => EmptyString
  | String c r =>
      match rstrip_by p r with
      | EmptyString => if p c then EmptyString else String c EmptyString
      | r' => String c r'
      end
  end.

(** [s.strip()] *)
Definition strip (s : string) : string := lstrip_by isspace (rstrip_by isspace s).

(** [s.startswith(p)] *)
Definition startswith (s p : string) : bool := String.prefix p s.

(** First element of [s.split(sep)], written [s.split(sep)[0]] in the source. *)
Definition split_head (sep : ascii) (s : string) : string :=
  hd EmptyString (split sep s).

(** [c.lower()] for a code point below 256: the capital letters are A-Z,
    the accented capitals 192-214 and 216-222, each 32 below its small
    letter. *)
Definition lower_char (c : ascii) : ascii :=
  let n := nat_of_ascii c in
  if (Nat.leb 65 n && Nat.leb n 90)
     || (Nat.leb 192 n && Nat.leb n 214)
     || (Nat.leb 216 n && Nat.leb n 222)
  then ascii_of_nat (n + 32)
  else c.

(** [s.lower()] *)
Fixpoint lower (s : string) : string :=
  match s with
  | EmptyString => EmptyString
  | String c r => String (lower_char c) (lower r)
  end.

(** [needle in s] *)
Fixpoint contains (needle s : string) : bool :=
  String.prefix needle s ||
  match s with
  | EmptyString => false
  | String _ r => contains needle r
  end.

(** [s.endswith(suffix)] *)
Fixpoint endswith (s suffix : string) : bool :=
  String.eqb s suffix ||
  match s with
  | EmptyString => false
  | String _ r => endswith r suffix
  end.

End Py.

(** ** Cells, series, rows and frames *)

Definition cell : Type := option string.
Definition Series : Type := list cell.
Definition Row : Type := list (string * cell).
Definition DataFrame : Type := list (string * Series).

(** [pd.isna] on a cell *)
Definition isna (c : cell) : bool :=
  match c with
  | None => true
  | Some _ => false
  end.

Module Pd.

Definition columns (df : DataFrame) : list string := map fst df.

(** [label in df.columns] *)
Definition has_column (label : string) (df : DataFrame) : bool :=
  existsb (String.eqb label) (columns df).

(** [df[label]], for a label that the frame carries at most once: the
    column, or [KeyError]. *)
Fixpoint getitem (df : DataFrame) (label : string) : result Series :=
  match df with
  | [] => Raise (KeyError label)
  | (l, c) :: rest => if String.eqb l label then Ok c else getitem rest label
  end.

(** [df[label] = col]: overwrite in place, or append as the last column. *)
Fixpoint setitem (df : DataFrame) (label : string) (col : Series) : DataFrame :=
  match df with
  | [] => [(label, col)]
  | (l, c) :: rest =>
      if String.eqb l label then (l, col) :: rest
      else (l, c) :: setitem rest label col
  end.

(** Number of rows. *)
Definition nrows (df : DataFrame) : nat :=
  match df with
  | [] => 0
  | (_, c) :: _ => List.length c
  end.

(** The rows of a frame as [apply(..., axis=1)] hands them to its function:
    each row is a series indexed by the column labels. *)
Definition row_at (df : DataFrame) (i : nat) : Row :=
  map (fun lc => (fst lc, nth i (snd lc) None)) df.

Definition iterrows (df : DataFrame) : list Row :=
  map (row_at df) (seq 0 (nrows df)).

(** [row.get(label)], for a label that the row carries at most once: the
    value, or [None] when the label is absent. *)
Fixpoint row_get (row : Row) (label : string) : cell :=
  match row with
  | [] => None
  | (l, v) :: rest => if String.eqb l label then v else row_get rest label
  end.

End Pd.

(** ** Validation stage: GBE consistency check (main.py, lines 85-95) *)

Definition check_gbe_match (row : Row) : string :=
  let brand_fixed := Pd.row_get row "BRAND1_VALIDATED" in
  let gbe := Pd.row_get row "GBE_VALIDATED" in
  match brand_fixed, gbe with
  | Some brand_fixed, Some gbe =>
      let brand_clean := Py.strip (Py.split_head "(" brand_fixed) in
      if Py.startswith gbe brand_clean then "Correct GBE" else "Incorrect GBE"
  | _, _ => "Missing Data"
  end.

Definition apply_gbe_validation (df : DataFrame) : DataFrame :=
  Pd.setitem df "GBE_STATUS"
    (map (fun row => Some (check_gbe_match row)) (Pd.iterrows df)).

(** ** The three regular expressions of the source *)

Module Re.

Definition LF : ascii := "010"%char.

(** The class [[^\[\(]]. *)
Definition not_bracket (c : ascii) : bool :=
  negb (Ascii.eqb c "[" || Ascii.eqb c "(").

(** Longest prefix made of characters of the class. *)
Fixpoint leading_run (s : string) : string :=
  match s with
  | EmptyString => EmptyString
  | String c r => if not_bracket c then String c (leading_run r) else EmptyString
  end.

(** Group 1 of [^([^\[\(]+)] searched in [s]; no match when the run is empty. *)
Definition extract_leading (s : string) : option string :=
  match leading_run s with
  | EmptyString => None
  | run => Some run
  end.

Definition is_blank (c : ascii) : bool := Ascii.eqb c " ".

(** [Some s'] when [s] is [s'] followed by one final line feed. *)
Fixpoint chop_newline (s : string) : option string :=
  match s with
  | EmptyString => None
  | String c r =>
      match r with
      | EmptyString => if Ascii.eqb c LF then Some EmptyString else None
      | _ => option_map (String c) (chop_newline r)
      end
  end.

(** [re.sub(r' +$', '', s)].  [$] holds at the end of the text and also just
    before a line feed that ends the text, so the blanks removed are those
    at the very end or, when the text ends with a line feed, those before
    that line feed. *)
Definition sub_trailing_blanks (s : string) : string :=
  match chop_newline s with
  | Some body => Py.rstrip_by is_blank body ++ String LF EmptyString
  | None => Py.rstrip_by is_blank s
  end.

(** [re.sub(r'([^\s])(\()', r'\1 (', s)]: matches are found left to right
    and do not overlap, so a '(' taken as group 1 of a match is not
    looked at again as the group 2 of the next one. *)
Fixpoint sub_paren (s : string) : string :=
  match s with
  | EmptyString => EmptyString
  | String c r =>
      match r with
      | EmptyString => String c EmptyString
      | String d r' =>
          if negb (Py.isspace c) && Ascii.eqb d "("
          then String c (String " " (String "(" (sub_paren r')))
          else String c (sub_paren r)
      end
  end.

End Re.

(** ** Series operations used by the source *)

(** How [astype(str)] renders a missing value: as the text [nan] (pandas
    before 3.0) or as a missing value still (pandas from 3.0 on, where the
    cast goes to the string dtype).  The source pins no version. *)
Inductive na_cast : Type := NaAsText | NaKept.

Module Ser.

Definition str_extract (c : cell) : cell :=
  match c with
  | Some s => Re.extract_leading s
  | None => None
  end.

Definition astype_str (m : na_cast) (c : cell) : cell :=
  match c, m with
  | Some s, _ => Some s
  | None, NaAsText => Some "nan"
  | None, NaKept => None
  end.

Definition str_replace_trailing (c : cell) : cell :=
  option_map Re.sub_trailing_blanks c.

(** [a + b] on cells: a missing operand gives a missing result. *)
Definition add (a b : cell) : cell :=
  match a, b with
  | Some x, Some y => Some (x ++ y)%string
  | _, _ => None
  end.

Definition add_str (col : Series) (s : string) : Series :=
  map (fun c => add c (Some s)) col.

Definition add_series (a b : Series) : Series :=
  map (fun p => add (fst p) (snd p)) (combine a b).

Definition fillna (col : Series) (s : string) : Series :=
  map (fun c => match c with None => Some s | Some _ => c end) col.

(** One row of [str.split(';', expand=True)] before padding. *)
Definition cons_row (c : cell) : list cell :=
  match c with
  | Some s => map Some (Py.split ";" s)
  | None => [None]
  end.

(** Number of columns of [col.str.split(';', expand=True)]: the largest
    token count of a row, a missing value counting for one. *)
Definition split_width (col : Series) : nat :=
  list_max (map (fun c => List.length (cons_row c)) col).

(** The columns of [col.str.split(';', expand=True)]: short rows are padded
    with missing values, a missing value fills its whole row. *)
Definition str_split_expand (col : Series) : list Series :=
  map (fun j => map (fun c => nth j (cons_row c) None) col)
      (seq 0 (split_width col)).

End Ser.

(** ** Column Splitter (main.py, lines 36-45) *)

(** [frame.columns = labels]: the lengths must agree. *)
Definition set_columns (cols : list Series) (labels : list string)
  : result DataFrame :=
  if Nat.eqb (List.length cols) (List.length labels)
  then Ok (combine labels cols)
  else Raise (ValueError "Length mismatch").

Definition split_brand_columns (df : DataFrame) : result DataFrame :=
  if Pd.has_column "BRAND_VALIDATED" df then
    col <- Pd.getitem df "BRAND_VALIDATED" ;;
    let brand_split := Ser.str_split_expand col in
    brand_split <- set_columns brand_split
                     ["BOI_VALIDATED"; "BRAND1_VALIDATED"; "GBE_VALIDATED"] ;;
    Ok (df ++ brand_split)
  else if Pd.has_column "BRAND_1" df then
    col <- Pd.getitem df "BRAND_1" ;;
    Ok (Pd.setitem df "BRAND1_VALIDATED" col)
  else
    Raise (KeyError "Neither 'BRAND_VALIDATED' nor 'BRAND_1' found in DataFrame.").

(** ** Key Builder (main.py, lines 47-54) *)

Definition clean_and_merge_supergroup (m : na_cast) (df : DataFrame)
  : result DataFrame :=
  brand <- Pd.getitem df "BRAND1_VALIDATED" ;;
  let df := Pd.setitem df "BRAND_1_CLEAN"
              (map (fun c => Ser.astype_str m (Ser.str_extract c)) brand) in
  clean <- Pd.getitem df "BRAND_1_CLEAN" ;;
  let df := Pd.setitem df "BRAND_1_CLEAN" (map Ser.str_replace_trailing clean) in
  if Pd.has_column "SUPER_GROUP" df then
    sg <- Pd.getitem df "SUPER_GROUP" ;;
    clean <- Pd.getitem df "BRAND_1_CLEAN" ;;
    Ok (Pd.setitem df "SG_B1" (Ser.add_series (Ser.add_str sg " ") clean))
  else if Pd.has_column "SUPER_GROUP_DSCR" df then
    sg <- Pd.getitem df "SUPER_GROUP_DSCR" ;;
    clean <- Pd.getitem df "BRAND_1_CLEAN" ;;
    Ok (Pd.setitem df "SG_B1" (Ser.add_series (Ser.add_str sg " ") clean))
  else Ok df.

(** ** Ownership Suggester (main.py, lines 56-64) *)

(** One row of the frame obtained by [groupby([...]).size().reset_index]:
    the two group labels and the size of the group. *)
Record Group : Type := mkGroup {
  g_key : string;     (* SG_B1 *)
  g_owner : string;   (* BRAND_OWNER_INTERNATIONAL *)
  g_count : nat       (* count *)
}.

Module Suggest.

(** The rows that take part in the grouping: [groupby] leaves out every row
    in which one of the two group labels is missing. *)
Fixpoint observed (keys owners : Series) : list (string * string) :=
  match keys, owners with
  | k :: ks, o :: os =>
      match k, o with
      | Some k, Some o => (k, o) :: observed ks os
      | _, _ => observed ks os
      end
  | _, _ => []
  end.

(** Order of the group labels: by join key, then by owner. *)
Definition cmp_labels (k1 o1 k2 o2 : string) : comparison :=
  match String.compare k1 k2 with
  | Eq => String.compare o1 o2
  | c => c
  end.

(** Counting one more row into the groups, which are kept sorted by their
    labels as [groupby] (with its default [sort=True]) delivers them. *)
Fixpoint tally (p : string * string) (groups : list Group) : list Group :=
  match groups with
  | [] => [mkGroup (fst p) (snd p) 1]
  | g :: rest =>
      match cmp_labels (fst p) (snd p) (g_key g) (g_owner g) with
      | Lt => mkGroup (fst p) (snd p) 1 :: groups
      | Eq => mkGroup (g_key g) (g_owner g) (S (g_count g)) :: rest
      | Gt => g :: tally p rest
      end
  end.

Definition groupby_size (keys owners : Series) : list Group :=
  fold_right tally [] (observed keys owners).

(** [a] goes strictly before [b] under
    [sort_values(['SG_B1', 'count'], ascending=[True, False])]. *)
Definition before (a b : Group) : bool :=
  match String.compare (g_key a) (g_key b) with
  | Lt => true
  | Eq => Nat.ltb (g_count b) (g_count a)
  | Gt => false
  end.

(** The sort on several columns is stable: a row stays ahead of the later
    rows that compare equal to it. *)
Fixpoint insert_stable (a : Group) (sorted : list Group) : list Group :=
  match sorted with
  | [] => [a]
  | b :: rest => if before b a then b :: insert_stable a rest else a :: sorted
  end.

Definition sort_values (groups : list Group) : list Group :=
  fold_right insert_stable [] groups.

(** [drop_duplicates(subset=['SG_B1'])]: the first row of each join key. *)
Fixpoint drop_duplicates_from (seen : list string) (groups : list Group)
  : list Group :=
  match groups with
  | [] => []
  | g :: rest =>
      if existsb (String.eqb (g_key g)) seen
      then drop_duplicates_from seen rest
      else g :: drop_duplicates_from (g_key g :: seen) rest
  end.

Definition drop_duplicates (groups : list Group) : list Group :=
  drop_duplicates_from [] groups.

End Suggest.

Definition generate_boi_suggest (ogrds_df : DataFrame) : result DataFrame :=
  keys <- Pd.getitem ogrds_df "SG_B1" ;;
  owners <- Pd.getitem ogrds_df "BRAND_OWNER_INTERNATIONAL" ;;
  let boi_suggest :=
    Suggest.drop_duplicates
      (Suggest.sort_values (Suggest.groupby_size keys owners)) in
  Ok [("SG_B1", map (fun g => Some (g_key g)) boi_suggest);
      ("BOI_SUGGEST", map (fun g => Some (g_owner g)) boi_suggest)].

(** ** Suggestion Merger (main.py, lines 66-69) *)

Module Merge.

(** Equality of join keys in [merge]: missing matches missing. *)
Definition keys_match (a b : cell) : bool :=
  match a, b with
  | Some x, Some y => String.eqb x y
  | None, None => true
  | _, _ => false
  end.

(** Positions of the rows of the right frame whose key matches [k]. *)
Definition hits (rkeys : Series) (k : cell) : list nat :=
  filter (fun j => keys_match k (nth j rkeys None)) (seq 0 (List.length rkeys)).

(** A left column in the joined frame: each cell once per matching right
    row, and once when nothing matches. *)
Definition left_column (found : list (list nat)) (col : Series) : Series :=
  flat_map (fun p => repeat (fst p) (Nat.max 1 (List.length (snd p))))
           (combine col found).

(** A right column in the joined frame: the cells of the matching rows, a
    missing value when nothing matches. *)
Definition right_column (found : list (list nat)) (col : Series) : Series :=
  flat_map (fun js => match js with
                      | [] => [None]
                      | _ => map (fun j => nth j col None) js
                      end) found.

(** [left.merge(right, on=on, how='left')], with the default suffixes for
    labels other than [on] that both frames carry. *)
Definition left_merge (left right : DataFrame) (on : string)
  : result DataFrame :=
  lkeys <- Pd.getitem left on ;;
  rkeys <- Pd.getitem right on ;;
  let found := map (hits rkeys) lkeys in
  let others := filter (fun lc => negb (String.eqb (fst lc) on)) right in
  let lname l := if negb (String.eqb l on) && Pd.has_column l others
                 then (l ++ "_x")%string else l in
  let rname l := if Pd.has_column l left then (l ++ "_y")%string else l in
  Ok (map (fun lc => (lname (fst lc), left_column found (snd lc))) left
      ++ map (fun lc => (rname (fst lc), right_column found (snd lc))) others).

End Merge.

Definition merge_boi_suggest (eu_df boi_suggest_df : DataFrame)
  : result DataFrame :=
  eu_df <- Merge.left_merge eu_df boi_suggest_df "SG_B1" ;;
  boi <- Pd.getitem eu_df "BOI_SUGGEST" ;;
  Ok (Pd.setitem eu_df "BOI_SUGGEST"
        (Ser.fillna boi "SG_B1 not present in OGRDS")).

(** ** Validation stage: spacing fix (main.py, lines 71-83) *)

Definition fix_spacing (val : cell) : cell :=
  match val with
  | None => None
  | Some val =>
      let parts := Py.split ";" val in
      let new_parts := map Re.sub_paren parts in
      Some (Py.join ";" new_parts)
  end.

Definition apply_spacing_fix (df : DataFrame) : result DataFrame :=
  col <- Pd.getitem df "BRAND_VALIDATED" ;;
  Ok (Pd.setitem df "BRAND_VALIDATED_FIXED" (map fix_spacing col)).

(** ** The pipeline (main.py, lines 97-110) *)

Definition process_pipeline (m : na_cast) (eu_df ogrds_df : DataFrame)
  : result DataFrame :=
  eu_df <- split_brand_columns eu_df ;;
  ogrds_df <- split_brand_columns ogrds_df ;;
  eu_df <- clean_and_merge_supergroup m eu_df ;;
  ogrds_df <- clean_and_merge_supergroup m ogrds_df ;;
  boi_suggest_df <- generate_boi_suggest ogrds_df ;;
  eu_df <- merge_boi_suggest eu_df boi_suggest_df ;;
  eu_df <- apply_spacing_fix eu_df ;;
  Ok (apply_gbe_validation eu_df).

(** ** Reading the archive (main.py, lines 9-33) *)

(** What the page shows, in the order it shows it. *)
Inductive shown : Type :=
| StError (msg : string)
| StInfo (msg : string)
| StSuccess (msg : string)
| StDownload (final_df : DataFrame)
| StPreview (first_rows : DataFrame)
| StException (e : exn).

Section Archive.

(** The content of an archive member and the two pandas readers; a reader
    that raises ends the run, the readers here are those that return. *)
Variable bytes : Type.
Variables read_csv read_excel : bytes -> DataFrame.

Definition read_uploaded_file (file : bytes) (filename : string)
  : option DataFrame :=
  if Py.endswith filename ".csv" then Some (read_csv file)
  else if Py.endswith filename ".xls" || Py.endswith filename ".xlsx"
       then Some (read_excel file)
       else None.

(** [next((f for f in file_list if needle in f.lower()), None)] *)
Definition first_named (needle : string) (file_list : list string)
  : option string :=
  find (fun f => Py.contains needle (Py.lower f)) file_list.

(** The archive is given by [z.namelist()] and by the content [z.open]
    reads for a name. *)
Definition extract_zip_and_identify
           (file_list : list string) (content : string -> bytes)
  : list shown * (option DataFrame * option DataFrame) :=
  let eu_file := first_named "eu" file_list in
  let ogrds_file := first_named "ogrds" file_list in
  match eu_file, ogrds_file with
  | Some eu_file, Some ogrds_file =>
      let df_eu := read_uploaded_file (content eu_file) eu_file in
      let df_ogrds := read_uploaded_file (content ogrds_file) ogrds_file in
      ([], (df_eu, df_ogrds))
  | _, _ =>
      ([StError "Could not identify both EU and OGRDS files in the zip."],
       (None, None))
  end.

End Archive.

(** * Vocabulary of the specification *)

(** [c] occurs in [s]. *)
Fixpoint occurs (c : ascii) (s : string) : Prop :=
  match s with
  | EmptyString => False
  | String d r => d = c \/ occurs c r
  end.

(** Every character of [s] satisfies [p]. *)
Fixpoint all_chars (p : ascii -> bool) (s : string) : bool :=
  match s with
  | EmptyString => true
  | String c r => p c && all_chars p r
  end.

Definition first_char (s : string) : option ascii :=
  match s with
  | EmptyString => None
  | String c _ => Some c
  end.

Fixpoint last_char (s : string) : option ascii :=
  match s with
  | EmptyString => None
  | String c r =>
      match r with
      | EmptyString => Some c
      | _ => last_char r
      end
  end.

(** [p] is a prefix of [s]. *)
Definition is_prefix (p s : string) : Prop :=
  exists rest, s = (p ++ rest)%string.

(** [pre] is the part of [s] before the first [sep], all of [s] when [sep]
    does not occur. *)
Definition before_first (sep : ascii) (s pre : string) : Prop :=
  ~ occurs sep pre /\
  (s = pre \/ exists rest, s = (pre ++ String sep rest)%string).

(** [t] is [s] without the characters satisfying [p] at its two ends. *)
Definition trimmed_by (p : ascii -> bool) (s t : string) : Prop :=
  (exists l r, s = (l ++ t ++ r)%string /\
               all_chars p l = true /\ all_chars p r = true) /\
  (forall c, first_char t = Some c -> p c = false) /\
  (forall c, last_char t = Some c -> p c = false).

(** [t] is [s] without the characters satisfying [p] at its end. *)
Definition rtrimmed_by (p : ascii -> bool) (s t : string) : Prop :=
  (exists r, s = (t ++ r)%string /\ all_chars p r = true) /\
  (forall c, last_char t = Some c -> p c = false).

(** Number of occurrences of [c] in [s]. *)
Fixpoint count_char (c : ascii) (s : string) : nat :=
  match s with
  | EmptyString => 0
  | String d r => (if Ascii.eqb d c then 1 else 0) + count_char c r
  end.

(** Number of ';'-separated tokens of a cell; a missing value fills one. *)
Definition ntokens (c : cell) : nat :=
  match c with
  | Some s => S (count_char ";" s)
  | None => 1
  end.

(** The [j]-th ';'-separated token of a cell, missing when the cell is
    missing or has too few tokens. *)
Definition part (j : nat) (c : cell) : cell :=
  match c with
  | Some s => nth_error (Py.split ";" s) j
  | None => None
  end.

(** [run] is the leading part of [s] before its first '[' or '(', all of
    [s] when it has neither. *)
Definition leading_part (s run : string) : Prop :=
  ~ occurs "[" run /\ ~ occurs "(" run /\
  (s = run \/
   exists c rest, (c = "["%char \/ c = "("%char) /\
                  s = (run ++ String c rest)%string).

(** [t] is [run] without its trailing blanks, where blanks that stand just
    before a line feed ending [run] count as trailing and that line feed
    stays. *)
Definition blank_trimmed (run t : string) : Prop :=
  (exists body t0,
      run = (body ++ String Re.LF EmptyString)%string /\
      rtrimmed_by Re.is_blank body t0 /\
      t = (t0 ++ String Re.LF EmptyString)%string) \/
  (last_char run <> Some Re.LF /\ rtrimmed_by Re.is_blank run t).

(** What a missing value becomes under [astype(str)]. *)
Definition missing_as (m : na_cast) : cell :=
  match m with
  | NaAsText => Some "nan"
  | NaKept => None
  end.

(** The cleaned brand name [clean] that goes with the brand name [brand]. *)
Definition cleaned_name (m : na_cast) (brand clean : cell) : Prop :=
  match brand with
  | None => clean = missing_as m
  | Some s =>
      forall run, leading_part s run ->
        (run = EmptyString -> clean = missing_as m) /\
        (run <> EmptyString ->
         exists t, blank_trimmed run t /\ clean = Some t)
  end.

(** [s] has two '(' in a row. *)
Fixpoint double_paren (s : string) : bool :=
  match s with
  | EmptyString => false
  | String c r =>
      (Ascii.eqb c "(" &&
       match first_char r with
       | Some d => Ascii.eqb d "("
       | None => false
       end) || double_paren r
  end.

(** The wording of the specification for one token: a blank goes before
    every '(' that directly follows a character of the token which is not
    white space.  [prev] is the character just before [s]. *)
Fixpoint space_after (prev : ascii) (s : string) : string :=
  match s with
  | EmptyString => EmptyString
  | String c r =>
      if negb (Py.isspace prev) && Ascii.eqb c "("
      then String " " (String c (space_after c r))
      else String c (space_after c r)
  end.

Definition space_parens (token : string) : string :=
  match token with
  | EmptyString => EmptyString
  | String c r => String c (space_after c r)
  end.

(** No '(' of [s] directly follows a character that is not white space. *)
Fixpoint settled (s : string) : bool :=
  match s with
  | EmptyString => true
  | String c r =>
      match first_char r with
      | Some d => Py.isspace c || negb (Ascii.eqb d "(")
      | None => true
      end && settled r
  end.

(** One row of the reference table counts for join key [k] and owner [o]. *)
Definition is_vote (k o : string) (row : cell * cell) : bool :=
  match row with
  | (Some k', Some o') => String.eqb k' k && String.eqb o' o
  | _ => false
  end.

(** Number of rows of the reference table with join key [k] and owner [o]. *)
Definition votes (keys owners : Series) (k o : string) : nat :=
  List.length (filter (is_vote k o) (combine keys owners)).

(** The two labels of a group. *)
Definition labels (g : Group) : string * string := (g_key g, g_owner g).

(** Order of the pairs of group labels. *)
Definition pair_lt (p q : string * string) : Prop :=
  Suggest.cmp_labels (fst p) (snd p) (fst q) (snd q) = Lt.

(** Sum of the counts of the groups labelled [(k, o)]. *)
Fixpoint total (groups : list Group) (k o : string) : nat :=
  match groups with
  | [] => 0
  | g :: rest =>
      (if String.eqb (g_key g) k && String.eqb (g_owner g) o
       then g_count g else 0) + total rest k o
  end.


(** The rows of the suggestion table, before [generate_boi_suggest] lays
    them out in two columns. *)
Definition chosen_rows (keys owners : Series) : list Group :=
  Suggest.drop_duplicates
    (Suggest.sort_values (Suggest.groupby_size keys owners)).

(** The first six statements of [process_pipeline]: everything up to and
    including the Suggestion Merger. *)
Definition pipeline_through_merge (m : na_cast) (eu_df ogrds_df : DataFrame)
  : result DataFrame :=
  eu_df <- split_brand_columns eu_df ;;
  ogrds_df <- split_brand_columns ogrds_df ;;
  eu_df <- clean_and_merge_supergroup m eu_df ;;
  ogrds_df <- clean_and_merge_supergroup m ogrds_df ;;
  boi_suggest_df <- generate_boi_suggest ogrds_df ;;
  merge_boi_suggest eu_df boi_suggest_df.

(** The two tables of the end-to-end example of the specification. *)
Definition eu_example : DataFrame :=
  [("SUPER_GROUP", [Some "EMEA"]); ("BRAND_1", [Some "Acme"])].

Definition ogrds_example : DataFrame :=
  [("SUPER_GROUP", [Some "EMEA"]);
   ("BRAND_VALIDATED", [Some "O1;Acme;Acme Europe"])].

(** The reference table of the example with the owner column the
    Ownership Suggester reads. *)
Definition ogrds_example_with_owner : DataFrame :=
  ogrds_example ++ [("BRAND_OWNER_INTERNATIONAL", [Some "O1"])].

(** [suffix] ends [s]. *)
Definition is_suffix (suffix s : string) : Prop :=
  exists pre, s = (pre ++ suffix)%string.

(** [needle] occurs in [s] as a run of consecutive characters. *)
Definition is_substring (needle s : string) : Prop :=
  exists pre post, s = (pre ++ needle ++ post)%string.

(** The name [f] matches [needle] whatever the case of its letters. *)
Definition named (needle f : string) : Prop :=
  is_substring needle (Py.lower f).

(** Every column of the frame has [n] cells. *)
Definition rect (n : nat) (df : DataFrame) : Prop :=
  Forall (fun lc => List.length (snd lc) = n) df.

(** [s] without its blanks. *)
Fixpoint remove_blanks (s : string) : string :=
  match s with
  | EmptyString => EmptyString
  | String c r =>
      if Ascii.eqb c " " then remove_blanks r else String c (remove_blanks r)
  end.

(** The join key built from a super-group value and a cleaned brand name:
    missing as soon as one of the two is missing. *)
Definition join_key (sg clean : cell) : cell :=
  match sg, clean with
  | Some s, Some c => Some (s ++ " " ++ c)%string
  | _, _ => None
  end.

(** The labels the pipeline writes on the primary table. *)
Definition derived_labels : list string :=
  ["BOI_VALIDATED"; "BRAND1_VALIDATED"; "GBE_VALIDATED"; "BRAND_1_CLEAN";
   "SG_B1"; "BOI_SUGGEST"; "BRAND_VALIDATED_FIXED"; "GBE_STATUS"].

(** The GBE status of a row that has the two given fields. *)
Definition gbe_status (brand gbe : cell) : cell :=
  Some (check_gbe_match [("BRAND1_VALIDATED", brand); ("GBE_VALIDATED", gbe)]).

(** The column holds a text value: pandas then has it as a text column. *)
Definition text_column (col : Series) : Prop :=
  Exists (fun c => c <> None) col.

(** No label occurs twice in the frame, resp. in the row. *)
Definition distinct_labels (df : DataFrame) : Prop := NoDup (Pd.columns df).

Definition distinct_fields (row : Row) : Prop := NoDup (map fst row).

(** The super-group column the Key Builder reads, if the frame has one, is
    a text column: SUPER_GROUP, or SUPER_GROUP_DSCR in its absence. *)
Definition super_group_text (df : DataFrame) : Prop :=
  (forall sg, Pd.getitem df "SUPER_GROUP" = Ok sg -> text_column sg) /\
  (Pd.has_column "SUPER_GROUP" df = false ->
   forall sg, Pd.getitem df "SUPER_GROUP_DSCR" = Ok sg -> text_column sg).

(** What the pipeline needs of a reference table: distinct labels; a
    composite brand column that splits three wide, on a table that does not
    yet carry the labels of the three parts, or else a fallback column that
    holds a text value; one of the two super-group columns, the one that is
    read holding a text value; and the owner column. *)
Definition reference_ready (ogrds_df : DataFrame) : Prop :=
  distinct_labels ogrds_df /\
  ((exists col,
       Pd.getitem ogrds_df "BRAND_VALIDATED" = Ok col /\
       Forall (fun c => ntokens c <= 3) col /\
       Exists (fun c => ntokens c = 3) col /\
       Pd.has_column "BOI_VALIDATED" ogrds_df = false /\
       Pd.has_column "BRAND1_VALIDATED" ogrds_df = false /\
       Pd.has_column "GBE_VALIDATED" ogrds_df = false) \/
   (Pd.has_column "BRAND_VALIDATED" ogrds_df = false /\
    exists brand,
      Pd.getitem ogrds_df "BRAND_1" = Ok brand /\ text_column brand)) /\
  (Pd.has_column "SUPER_GROUP" ogrds_df = true \/
   Pd.has_column "SUPER_GROUP_DSCR" ogrds_df = true) /\
  super_group_text ogrds_df /\
  Pd.has_column "BRAND_OWNER_INTERNATIONAL" ogrds_df = true.

(** The cleaned brand name as the Key Builder computes it from a cell. *)
Definition clean_cell (m : na_cast) (c : cell) : cell :=
  Ser.str_replace_trailing (Ser.astype_str m (Ser.str_extract c)).

(** What one pass of the spacing fix leaves behind: a '(' that directly
    follows a character that is not white space follows a '(' which itself
    follows white space.  [prev] is the character before [s], if any. *)
Fixpoint once_from (prev : option ascii) (s : string) : bool :=
  match s with
  | EmptyString => true
  | String c r =>
      match first_char r with
      | Some d =>
          if negb (Py.isspace c) && Ascii.eqb d "("
          then Ascii.eqb c "(" &&
               match prev with
               | Some p => Py.isspace p
               | None => false
               end
          else true
      | None => true
      end && once_from (Some c) r
  end.

(** * Facts about the text primitives *)

Section TextFacts.
Local Open Scope string_scope.

Lemma append_empty_r (s : string) : s ++ "" = s.
Proof. induction s as [|c s IH]; simpl; [reflexivity | now rewrite IH]. Qed.

Lemma append_assoc (a b c : string) : (a ++ b) ++ c = a ++ (b ++ c).
Proof. induction a as [|x a IH]; simpl; [reflexivity | now rewrite IH]. Qed.

Lemma last_char_append (l t : string) :
  t <> "" -> last_char (l ++ t) = last_char t.
Proof.
  intros Ht. induction l as [|c l IH]; simpl; [reflexivity|].
  rewrite IH. destruct (l ++ t) eqn:E; [|reflexivity].
  destruct l; simpl in E; [congruence | discriminate].
Qed.

Lemma startswith_spec (s p : string) :
  Py.startswith s p = true <-> is_prefix p s.
Proof.
  unfold Py.startswith, is_prefix. revert p.
  induction s as [|c s IH]; intros [|d p]; simpl.
  - split; [exists ""; reflexivity | reflexivity].
  - split; [discriminate | intros [r Hr]; discriminate].
  - split; [exists (String c s); reflexivity | reflexivity].
  - destruct (ascii_dec d c) as [->|Hne].
    + rewrite IH. split; intros [r Hr]; exists r; congruence.
    + split; [discriminate | intros [r Hr]; congruence].
Qed.

Lemma split_not_nil (sep : ascii) (s : string) : Py.split sep s <> [].
Proof.
  destruct s as [|c s]; simpl; [discriminate|].
  destruct (Ascii.eqb c sep); [discriminate|].
  destruct (Py.split sep s); discriminate.
Qed.

Lemma split_head_cons (sep c : ascii) (s : string) :
  Py.split_head sep (String c s)
  = if Ascii.eqb c sep then "" else String c (Py.split_head sep s).
Proof.
  unfold Py.split_head. simpl. destruct (Ascii.eqb c sep); [reflexivity|].
  destruct (Py.split sep s) eqn:E; [|reflexivity].
  now apply split_not_nil in E.
Qed.

Lemma split_head_before_first (sep : ascii) (s : string) :
  before_first sep s (Py.split_head sep s).
Proof.
  induction s as [|c s [Hno Hs]].
  - split; [intros [] | left; reflexivity].
  - rewrite split_head_cons. destruct (Ascii.eqb_spec c sep) as [->|Hne].
    + split; [intros [] | right; exists s; reflexivity].
    + split.
      * simpl. intros [E|E]; [now apply Hne | now apply Hno].
      * destruct Hs as [Hs|[r Hr]].
        -- left. now rewrite <- Hs.
        -- right. exists r. simpl. now rewrite <- Hr.
Qed.

Lemma before_first_unique (sep : ascii) (s pre : string) :
  before_first sep s pre -> Py.split_head sep s = pre.
Proof.
  revert s. induction pre as [|c pre IH]; intros s [Hno Hs].
  - destruct Hs as [->|[r ->]]; [reflexivity|].
    simpl. rewrite split_head_cons, Ascii.eqb_refl. reflexivity.
  - assert (Hc : c <> sep) by (intros E; apply Hno; now left).
    assert (Hp : ~ occurs sep pre) by (intros E; apply Hno; now right).
    assert (Hs' : exists s', s = String c s' /\ before_first sep s' pre).
    { destruct Hs as [->|[r ->]].
      - exists pre. split; [reflexivity | split; [assumption | now left]].
      - exists (pre ++ String sep r). split; [reflexivity|].
        split; [assumption | right; now exists r]. }
    destruct Hs' as [s' [-> Hb]]. rewrite split_head_cons.
    destruct (Ascii.eqb_spec c sep); [contradiction|]. now rewrite (IH s' Hb).
Qed.

Lemma rstrip_all (p : ascii -> bool) (r : string) :
  all_chars p r = true -> Py.rstrip_by p r = "".
Proof.
  induction r as [|c r IH]; simpl; [reflexivity|].
  intros H. apply andb_prop in H. destruct H as [Hc Hr].
  now rewrite (IH Hr), Hc.
Qed.

Lemma rstrip_append_all (p : ascii -> bool) (x r : string) :
  all_chars p r = true -> Py.rstrip_by p (x ++ r) = Py.rstrip_by p x.
Proof.
  intros Hr. induction x as [|c x IH]; simpl.
  - now apply rstrip_all.
  - now rewrite IH.
Qed.

Lemma rstrip_fixed (p : ascii -> bool) (x : string) :
  (forall c, last_char x = Some c -> p c = false) -> Py.rstrip_by p x = x.
Proof.
  induction x as [|c x IH]; simpl; [reflexivity|].
  intros H. destruct x as [|d x].
  - simpl. now rewrite (H c eq_refl).
  - rewrite (IH H). reflexivity.
Qed.

Lemma rstrip_rtrimmed (p : ascii -> bool) (s : string) :
  rtrimmed_by p s (Py.rstrip_by p s).
Proof.
  induction s as [|c s [[r [Hs Hr]] Hl]].
  - split; [exists ""; split; reflexivity | discriminate].
  - simpl. destruct (Py.rstrip_by p s) as [|d t] eqn:E.
    + destruct (p c) eqn:Hc.
      * split; [|discriminate]. exists (String c s). split; [reflexivity|].
        simpl. rewrite Hc. simpl in Hs. now rewrite Hs.
      * split.
        -- exists s. split; [reflexivity|]. simpl in Hs. now rewrite Hs.
        -- simpl. intros c' [= <-]. assumption.
    + split.
      * exists r. split; [|assumption]. simpl. f_equal. exact Hs.
      * exact Hl.
Qed.

Lemma rtrimmed_unique (p : ascii -> bool) (s t : string) :
  rtrimmed_by p s t -> Py.rstrip_by p s = t.
Proof.
  intros [[r [-> Hr]] Hl].
  rewrite rstrip_append_all by assumption. now apply rstrip_fixed.
Qed.

Lemma lstrip_spec (p : ascii -> bool) (s : string) :
  (exists l, s = l ++ Py.lstrip_by p s /\ all_chars p l = true) /\
  (forall c, first_char (Py.lstrip_by p s) = Some c -> p c = false).
Proof.
  induction s as [|c s [[l [Hs Hl]] Hf]].
  - split; [exists ""; split; reflexivity | discriminate].
  - simpl. destruct (p c) eqn:Hc.
    + split; [|assumption]. exists (String c l). split.
      * simpl. now rewrite <- Hs.
      * simpl. now rewrite Hc.
    + split; [exists ""; split; reflexivity|].
      simpl. intros c' [= <-]. assumption.
Qed.

Lemma lstrip_append_all (p : ascii -> bool) (l t : string) :
  all_chars p l = true ->
  (forall c, first_char t = Some c -> p c = false) ->
  Py.lstrip_by p (l ++ t) = t.
Proof.
  intros Hl Ht. induction l as [|c l IH]; simpl.
  - destruct t as [|d t]; simpl; [reflexivity|]. now rewrite (Ht d eq_refl).
  - simpl in Hl. apply andb_prop in Hl. destruct Hl as [Hc Hl].
    rewrite Hc. now apply IH.
Qed.

Lemma strip_trimmed (s : string) : trimmed_by Py.isspace s (Py.strip s).
Proof.
  unfold Py.strip.
  destruct (rstrip_rtrimmed Py.isspace s) as [[r [Hs Hr]] Hlast].
  destruct (lstrip_spec Py.isspace (Py.rstrip_by Py.isspace s))
    as [[l [Hx Hl]] Hfirst].
  split; [|split].
  - exists l, r. repeat split; try assumption.
    rewrite <- append_assoc, <- Hx. exact Hs.
  - exact Hfirst.
  - intros c Hc.
    destruct (Py.lstrip_by Py.isspace (Py.rstrip_by Py.isspace s)) eqn:E;
      [discriminate|].
    apply Hlast. rewrite Hx, last_char_append; [assumption | discriminate].
Qed.

Lemma trimmed_unique (s t : string) :
  trimmed_by Py.isspace s t -> Py.strip s = t.
Proof.
  intros [[l [r [-> [Hl Hr]]]] [Hfirst Hlast]]. unfold Py.strip.
  rewrite <- append_assoc, rstrip_append_all by assumption.
  destruct t as [|c t].
  - rewrite append_empty_r, rstrip_all by assumption. reflexivity.
  - rewrite rstrip_fixed.
    + now apply lstrip_append_all.
    + intros d. rewrite last_char_append by discriminate. apply Hlast.
Qed.

End TextFacts.

(** * Facts about frames *)

Section FrameFacts.

Lemma has_column_In (label : string) (df : DataFrame) :
  Pd.has_column label df = true <-> In label (Pd.columns df).
Proof.
  unfold Pd.has_column. rewrite existsb_exists. split.
  - intros [l [Hin Heq]]. apply String.eqb_eq in Heq. now subst.
  - intros Hin. exists label. split; [assumption | apply String.eqb_refl].
Qed.

Lemma has_column_false (label : string) (df : DataFrame) :
  Pd.has_column label df = false <-> ~ In label (Pd.columns df).
Proof.
  rewrite <- has_column_In. destruct (Pd.has_column label df); split;
    congruence.
Qed.

Lemma getitem_present (df : DataFrame) (label : string) :
  Pd.has_column label df = true -> exists col, Pd.getitem df label = Ok col.
Proof.
  unfold Pd.has_column, Pd.columns.
  induction df as [|[l c] df IH]; simpl; [discriminate|].
  rewrite (String.eqb_sym label l). destruct (String.eqb l label).
  - intros _. now exists c.
  - exact IH.
Qed.

Lemma getitem_absent (df : DataFrame) (label : string) :
  Pd.has_column label df = false -> Pd.getitem df label = Raise (KeyError label).
Proof.
  unfold Pd.has_column, Pd.columns.
  induction df as [|[l c] df IH]; simpl; [reflexivity|].
  rewrite (String.eqb_sym label l). destruct (String.eqb l label);
    [discriminate | exact IH].
Qed.

Lemma getitem_Ok_has_column (df : DataFrame) (label : string) (col : Series) :
  Pd.getitem df label = Ok col -> Pd.has_column label df = true.
Proof.
  intros H. destruct (Pd.has_column label df) eqn:E; [reflexivity|].
  rewrite (getitem_absent _ _ E) in H. discriminate.
Qed.

Lemma getitem_setitem_same (df : DataFrame) (label : string) (col : Series) :
  Pd.getitem (Pd.setitem df label col) label = Ok col.
Proof.
  induction df as [|[l c] df IH]; simpl.
  - now rewrite String.eqb_refl.
  - destruct (String.eqb l label) eqn:E; simpl; rewrite E; [reflexivity | exact IH].
Qed.

Lemma getitem_setitem_other (df : DataFrame) (label other : string)
      (col : Series) :
  other <> label ->
  Pd.getitem (Pd.setitem df label col) other = Pd.getitem df other.
Proof.
  intros Hne. induction df as [|[l c] df IH]; simpl.
  - destruct (String.eqb_spec label other); [congruence | reflexivity].
  - destruct (String.eqb_spec l label) as [->|Hl]; simpl.
    + destruct (String.eqb_spec label other); [congruence | reflexivity].
    + destruct (String.eqb l other); [reflexivity | exact IH].
Qed.

Lemma has_column_setitem (df : DataFrame) (label other : string)
      (col : Series) :
  Pd.has_column other (Pd.setitem df label col)
  = String.eqb other label || Pd.has_column other df.
Proof.
  unfold Pd.has_column, Pd.columns.
  induction df as [|[l c] df IH]; simpl.
  - reflexivity.
  - destruct (String.eqb_spec l label) as [->|Hl]; simpl.
    + now destruct (String.eqb other label).
    + rewrite IH. destruct (String.eqb other l), (String.eqb other label);
        reflexivity.
Qed.

Lemma getitem_app (df1 df2 : DataFrame) (label : string) :
  Pd.getitem (df1 ++ df2) label
  = match Pd.getitem df1 label with
    | Ok col => Ok col
    | Raise _ => Pd.getitem df2 label
    end.
Proof.
  induction df1 as [|[l c] df1 IH]; simpl; [reflexivity|].
  destruct (String.eqb l label); [reflexivity | exact IH].
Qed.

End FrameFacts.

(** * Validation stage: the GBE consistency check *)

(** C7.  On every row, a row being a mapping from labels to values (no
    label twice), the check answers "Missing Data" when the brand-name field
    or the group-entity field of the row is missing; otherwise, with [pre]
    the part
    of the brand name before its first '(' and [t] that part trimmed of
    white space at both ends, it answers "Correct GBE" when the group entity
    starts with [t] and "Incorrect GBE" when it does not; the brand name
    "Acme (X)" is correct for "Acme Europe" and incorrect for "Other". *)
Theorem check_gbe_match_classification (row : Row) :
  distinct_fields row ->
  (Pd.row_get row "BRAND1_VALIDATED" = None \/
   Pd.row_get row "GBE_VALIDATED" = None ->
   check_gbe_match row = "Missing Data") /\
  (forall b g pre t,
      Pd.row_get row "BRAND1_VALIDATED" = Some b ->
      Pd.row_get row "GBE_VALIDATED" = Some g ->
      before_first "(" b pre ->
      trimmed_by Py.isspace pre t ->
      (is_prefix t g -> check_gbe_match row = "Correct GBE") /\
      (~ is_prefix t g -> check_gbe_match row = "Incorrect GBE")) /\
  check_gbe_match [("BRAND1_VALIDATED", Some "Acme (X)");
                   ("GBE_VALIDATED", Some "Acme Europe")] = "Correct GBE" /\
  check_gbe_match [("BRAND1_VALIDATED", Some "Acme (X)");
                   ("GBE_VALIDATED", Some "Other")] = "Incorrect GBE".
Proof.
  intros _. split; [|split; [|split; reflexivity]].
  - unfold check_gbe_match. intros [-> | ->]; [reflexivity|].
    now destruct (Pd.row_get row "BRAND1_VALIDATED").
  - intros b g pre t Hb Hg Hpre Ht. unfold check_gbe_match.
    rewrite Hb, Hg. rewrite (before_first_unique _ _ _ Hpre).
    rewrite (trimmed_unique _ _ Ht).
    destruct (Py.startswith g t) eqn:E.
    + split; [reflexivity|]. intros Hn. apply startswith_spec in E.
      contradiction.
    + split; [|reflexivity]. intros Hp. apply startswith_spec in Hp.
      congruence.
Qed.

Lemma check_gbe_match_classification_witness :
  distinct_fields [("BRAND1_VALIDATED", Some "Acme (X)");
                   ("GBE_VALIDATED", Some "Acme Europe")] /\
  before_first "(" "Acme (X)" "Acme " /\
  trimmed_by Py.isspace "Acme " "Acme" /\
  is_prefix "Acme" "Acme Europe" /\
  check_gbe_match [("BRAND1_VALIDATED", Some "Acme (X)");
                   ("GBE_VALIDATED", Some "Acme Europe")] = "Correct GBE".
Proof.
  assert (H1 : before_first "(" "Acme (X)" "Acme ").
  { split.
    - simpl. intros H. repeat (destruct H as [H|H]; [discriminate|]). exact H.
    - right. exists "X)". reflexivity. }
  assert (H2 : trimmed_by Py.isspace "Acme " "Acme").
  { split; [exists "", " "; repeat split|].
    split; intros c [= <-]; reflexivity. }
  assert (H3 : is_prefix "Acme" "Acme Europe") by (exists " Europe"; reflexivity).
  assert (H0 : distinct_fields [("BRAND1_VALIDATED", Some "Acme (X)");
                                ("GBE_VALIDATED", Some "Acme Europe")]).
  { unfold distinct_fields. simpl.
    constructor; [intros [H|[]]; discriminate H|].
    constructor; [intros [] | constructor]. }
  split; [exact H0 | split; [exact H1 | split; [exact H2 | split; [exact H3 |]]]].
  exact (proj1 (proj1 (proj2 (check_gbe_match_classification
           [("BRAND1_VALIDATED", Some "Acme (X)");
            ("GBE_VALIDATED", Some "Acme Europe")] H0))
           "Acme (X)" "Acme Europe" "Acme " "Acme"
           eq_refl eq_refl H1 H2) H3).
Defined.

(** C10.  On a row (a mapping from labels to values: no label twice) whose
    two fields are present and whose brand name begins with '(', the part
    before the first '(' is empty, so is its trimmed form, and the check
    answers "Correct GBE" whatever the group entity is. *)
Theorem check_gbe_match_leading_paren (row : Row) (b g rest : string) :
  distinct_fields row ->
  Pd.row_get row "BRAND1_VALIDATED" = Some b ->
  Pd.row_get row "GBE_VALIDATED" = Some g ->
  b = String "(" rest ->
  Py.strip (Py.split_head "(" b) = "" /\
  is_prefix "" g /\
  check_gbe_match row = "Correct GBE".
Proof.
  intros _ Hb Hg ->. unfold check_gbe_match. rewrite Hb, Hg.
  rewrite split_head_cons. simpl.
  split; [reflexivity | split; [now exists g |]].
  unfold Py.startswith. now destruct g.
Qed.

Lemma check_gbe_match_leading_paren_witness :
  distinct_fields [("BRAND1_VALIDATED", Some "(Acme) Nord");
                   ("GBE_VALIDATED", Some "Zeta")] /\
  check_gbe_match [("BRAND1_VALIDATED", Some "(Acme) Nord");
                   ("GBE_VALIDATED", Some "Zeta")] = "Correct GBE".
Proof.
  assert (H0 : distinct_fields [("BRAND1_VALIDATED", Some "(Acme) Nord");
                                ("GBE_VALIDATED", Some "Zeta")]).
  { unfold distinct_fields. simpl.
    constructor; [intros [H|[]]; discriminate H|].
    constructor; [intros [] | constructor]. }
  split; [exact H0|].
  exact (proj2 (proj2 (check_gbe_match_leading_paren
           [("BRAND1_VALIDATED", Some "(Acme) Nord");
            ("GBE_VALIDATED", Some "Zeta")]
           "(Acme) Nord" "Zeta" "Acme) Nord" H0 eq_refl eq_refl eq_refl))).
Defined.

(** * Column Splitter *)

Section SplitFacts.
Local Open Scope string_scope.

Lemma split_length (sep : ascii) (s : string) :
  List.length (Py.split sep s) = S (count_char sep s).
Proof.
  induction s as [|c s IH]; simpl; [reflexivity|].
  destruct (Ascii.eqb c sep); simpl; [now rewrite IH|].
  destruct (Py.split sep s); simpl in *; [discriminate | exact IH].
Qed.

Lemma join_split (sep : ascii) (s : string) : Py.join sep (Py.split sep s) = s.
Proof.
  induction s as [|c s IH]; simpl; [reflexivity|].
  destruct (Ascii.eqb_spec c sep) as [->|Hne].
  - pose proof (split_not_nil sep s) as Hn.
    simpl. destruct (Py.split sep s); [contradiction|]. simpl in *.
    now rewrite IH.
  - pose proof (split_not_nil sep s) as Hn.
    destruct (Py.split sep s) as [|t ts]; [contradiction|].
    destruct ts; simpl in *; now rewrite IH.
Qed.

Lemma split_no_sep (sep : ascii) (s : string) :
  Forall (fun t => ~ occurs sep t) (Py.split sep s).
Proof.
  induction s as [|c s IH]; simpl.
  - constructor; [intros [] | constructor].
  - destruct (Ascii.eqb_spec c sep) as [->|Hne].
    + constructor; [intros [] | exact IH].
    + destruct (Py.split sep s) as [|t ts]; inversion IH; subst;
        constructor; try assumption; try constructor; simpl;
        intros [E|E]; try contradiction.
Qed.

Lemma split_join (sep : ascii) (parts : list string) :
  parts <> [] -> Forall (fun t => ~ occurs sep t) parts ->
  Py.split sep (Py.join sep parts) = parts.
Proof.
  induction parts as [|t ts IH]; [congruence|]. intros _ Hall.
  inversion Hall as [|? ? Ht Hts]; subst.
  destruct ts as [|u ts].
  - simpl. clear IH Hall Hts. induction t as [|c t IHt]; [reflexivity|].
    simpl in *. destruct (Ascii.eqb_spec c sep) as [->|Hne].
    + exfalso. apply Ht. now left.
    + rewrite IHt; [reflexivity | intros E; apply Ht; now right].
  - assert (IH' := IH ltac:(discriminate) Hts). clear IH.
    change (Py.join sep (t :: u :: ts))
      with (t ++ String sep (Py.join sep (u :: ts))).
    remember (Py.join sep (u :: ts)) as rest eqn:Hrest. clear Hrest Hall.
    induction t as [|c t IHt].
    + simpl. rewrite Ascii.eqb_refl. now rewrite IH'.
    + simpl in *. destruct (Ascii.eqb_spec c sep) as [->|Hne].
      * exfalso. apply Ht. now left.
      * rewrite IHt; [reflexivity | intros E; apply Ht; now right].
Qed.

Lemma cons_row_length (c : cell) : List.length (Ser.cons_row c) = ntokens c.
Proof.
  destruct c as [s|]; simpl; [|reflexivity].
  now rewrite length_map, split_length.
Qed.

Lemma cons_row_nth (j : nat) (c : cell) : nth j (Ser.cons_row c) None = part j c.
Proof.
  destruct c as [s|]; simpl.
  - revert j. induction (Py.split ";" s) as [|t ts IH]; intros [|j]; simpl;
      try reflexivity. apply IH.
  - destruct j as [|[|j]]; reflexivity.
Qed.

Lemma split_width_ntokens (col : Series) :
  Ser.split_width col = list_max (map ntokens col).
Proof.
  unfold Ser.split_width. f_equal. apply map_ext. exact cons_row_length.
Qed.

Lemma str_split_expand_width (col : Series) :
  List.length (Ser.str_split_expand col) = Ser.split_width col.
Proof. unfold Ser.str_split_expand. now rewrite length_map, length_seq. Qed.

Lemma str_split_expand_three (col : Series) :
  Ser.split_width col = 3 ->
  Ser.str_split_expand col = [map (part 0) col; map (part 1) col; map (part 2) col].
Proof.
  unfold Ser.str_split_expand. intros ->. simpl.
  rewrite !(map_ext _ _ (cons_row_nth _)). reflexivity.
Qed.

End SplitFacts.

Section WidthFacts.

Lemma list_max_exact (n : nat) (l : list nat) :
  Forall (fun k => k <= n) l -> Exists (fun k => k = n) l -> list_max l = n.
Proof.
  intros Hle Hex. apply Nat.le_antisymm.
  - now apply list_max_le.
  - induction Hex as [k l Hk | k l _ IH]; simpl; [lia|].
    inversion Hle as [|? ? _ Hl]; subst. specialize (IH Hl). lia.
Qed.

Lemma list_max_above (n : nat) (l : list nat) :
  Exists (fun k => n < k) l -> n < list_max l.
Proof. induction 1; simpl; lia. Qed.

Lemma list_max_below (n : nat) (l : list nat) :
  0 < n -> Forall (fun k => k < n) l -> list_max l < n.
Proof. intros Hn. induction 1; simpl; lia. Qed.

Lemma split_brand_columns_composite (df : DataFrame) (col : Series) :
  Pd.getitem df "BRAND_VALIDATED" = Ok col ->
  split_brand_columns df
  = (brand_split <- set_columns (Ser.str_split_expand col)
                      ["BOI_VALIDATED"; "BRAND1_VALIDATED"; "GBE_VALIDATED"] ;;
     Ok (df ++ brand_split)).
Proof.
  intros H. unfold split_brand_columns.
  now rewrite (getitem_Ok_has_column _ _ _ H), H.
Qed.

End WidthFacts.

(** C2 (amended).  With a BRAND_VALIDATED column in which no value has more
    than three ';'-separated tokens and some value has exactly three, the
    splitter appends the three columns holding, row by row, the first, second
    and third token of the value, a missing value where the row has no such
    token (or no value at all); "A;B;C" gives "A", "B" and "C".  When some
    value has more than three tokens, or when the column holds a value and
    every value has fewer than three, the three labels do not fit the split
    and the splitter raises. *)
Theorem split_brand_columns_three_parts (df : DataFrame) (col : Series) :
  Pd.getitem df "BRAND_VALIDATED" = Ok col ->
  (Forall (fun c => ntokens c <= 3) col ->
   Exists (fun c => ntokens c = 3) col ->
   split_brand_columns df
   = Ok (df ++ [("BOI_VALIDATED", map (part 0) col);
                ("BRAND1_VALIDATED", map (part 1) col);
                ("GBE_VALIDATED", map (part 2) col)])) /\
  (Exists (fun c => 3 < ntokens c) col \/
   (text_column col /\ Forall (fun c => ntokens c < 3) col) ->
   split_brand_columns df = Raise (ValueError "Length mismatch")) /\
  (part 0 (Some "A;B;C"), part 1 (Some "A;B;C"), part 2 (Some "A;B;C"))
  = (Some "A", Some "B", Some "C").
Proof.
  intros Hcol. rewrite (split_brand_columns_composite _ _ Hcol).
  unfold set_columns. rewrite str_split_expand_width, split_width_ntokens.
  split; [|split; [|reflexivity]].
  - intros Hle Hex.
    assert (W : list_max (map ntokens col) = 3).
    { apply list_max_exact.
      - now apply Forall_map.
      - now apply Exists_map. }
    rewrite W. simpl.
    rewrite str_split_expand_three by now rewrite split_width_ntokens.
    reflexivity.
  - intros H.
    assert (W : list_max (map ntokens col) <> 3).
    { destruct H as [H|[_ H]].
      - apply Exists_map in H. apply list_max_above in H. lia.
      - pose proof (proj2 (Forall_map ntokens (fun k => k < 3) col) H) as H'.
        apply list_max_below in H'; lia. }
    apply Nat.eqb_neq in W. simpl List.length. now rewrite W.
Qed.

Lemma split_brand_columns_three_parts_witness :
  split_brand_columns
    [("BRAND_VALIDATED", [Some "A;B;C"; Some "P;Q"; None])]
  = Ok [("BRAND_VALIDATED", [Some "A;B;C"; Some "P;Q"; None]);
        ("BOI_VALIDATED", [Some "A"; Some "P"; None]);
        ("BRAND1_VALIDATED", [Some "B"; Some "Q"; None]);
        ("GBE_VALIDATED", [Some "C"; None; None])] /\
  split_brand_columns [("BRAND_VALIDATED", [Some "A;B"; None])]
  = Raise (ValueError "Length mismatch").
Proof.
  split.
  - refine (proj1 (split_brand_columns_three_parts
                     [("BRAND_VALIDATED", [Some "A;B;C"; Some "P;Q"; None])]
                     [Some "A;B;C"; Some "P;Q"; None] eq_refl) _ _).
    + repeat constructor.
    + apply Exists_cons_hd. reflexivity.
  - refine (proj1 (proj2 (split_brand_columns_three_parts
                     [("BRAND_VALIDATED", [Some "A;B"; None])]
                     [Some "A;B"; None] eq_refl)) _).
    right. split.
    + apply Exists_cons_hd. discriminate.
    + repeat constructor.
Defined.

(** C2, counterexample.  A value with a fourth token is not cut down to
    three parts, and a lone value with two tokens is not padded to three:
    in both cases the splitter raises. *)
Lemma split_brand_columns_no_truncation :
  split_brand_columns [("BRAND_VALIDATED", [Some "A;B;C;D"])]
  = Raise (ValueError "Length mismatch") /\
  split_brand_columns [("BRAND_VALIDATED", [Some "A;B"])]
  = Raise (ValueError "Length mismatch").
Proof. split; reflexivity. Qed.

(** C9.  The splitter raises its schema error (the [KeyError] of the source)
    exactly when the table has neither a BRAND_VALIDATED nor a BRAND_1
    column; with BRAND_1 alone it returns the table with that column copied
    under the brand-name label, every other label being left as it was. *)
Theorem split_brand_columns_schema_error (df : DataFrame) :
  ((exists what, split_brand_columns df = Raise (KeyError what)) <->
   ~ In "BRAND_VALIDATED" (Pd.columns df) /\ ~ In "BRAND_1" (Pd.columns df)) /\
  (forall col,
      ~ In "BRAND_VALIDATED" (Pd.columns df) ->
      Pd.getitem df "BRAND_1" = Ok col ->
      exists out,
        split_brand_columns df = Ok out /\
        Pd.getitem out "BRAND1_VALIDATED" = Ok col /\
        forall label, label <> "BRAND1_VALIDATED" ->
                      Pd.getitem out label = Pd.getitem df label).
Proof.
  split.
  - split.
    + intros [what H]. unfold split_brand_columns in H.
      destruct (Pd.has_column "BRAND_VALIDATED" df) eqn:E1.
      * exfalso. destruct (getitem_present _ _ E1) as [col Hcol].
        rewrite Hcol in H. simpl in H. unfold set_columns in H.
        destruct (Nat.eqb _ _); discriminate.
      * destruct (Pd.has_column "BRAND_1" df) eqn:E2.
        -- exfalso. destruct (getitem_present _ _ E2) as [col Hcol].
           rewrite Hcol in H. discriminate.
        -- split; now apply has_column_false.
    + intros [H1 H2]. apply has_column_false in H1, H2.
      unfold split_brand_columns. rewrite H1, H2. eexists. reflexivity.
  - intros col H1 Hcol. apply has_column_false in H1.
    unfold split_brand_columns.
    rewrite H1, (getitem_Ok_has_column _ _ _ Hcol), Hcol. simpl.
    eexists. split; [reflexivity|]. split.
    + apply getitem_setitem_same.
    + intros label Hne. now apply getitem_setitem_other.
Qed.

Lemma split_brand_columns_schema_error_witness :
  (exists what,
      split_brand_columns [("SUPER_GROUP", [Some "EMEA"])]
      = Raise (KeyError what)) /\
  (exists out,
      split_brand_columns [("SUPER_GROUP", [Some "EMEA"]); ("BRAND_1", [Some "X"])]
      = Ok out /\
      Pd.getitem out "BRAND1_VALIDATED" = Ok [Some "X"]).
Proof.
  split.
  - apply (proj1 (split_brand_columns_schema_error _)). split; simpl;
      intros [H|H]; [discriminate | exact H | discriminate | exact H].
  - destruct (proj2 (split_brand_columns_schema_error
                       [("SUPER_GROUP", [Some "EMEA"]); ("BRAND_1", [Some "X"])])
                    [Some "X"]) as [out [H1 [H2 _]]].
    + simpl. intros [H|[H|H]]; [discriminate | discriminate | exact H].
    + reflexivity.
    + exists out. split; assumption.
Defined.

(** * Key Builder *)

Section CleanFacts.
Local Open Scope string_scope.

Lemma leading_run_part (s : string) : leading_part s (Re.leading_run s).
Proof.
  induction s as [|c s [H1 [H2 H3]]].
  - repeat split; try (intros []). now left.
  - simpl. unfold Re.not_bracket.
    destruct (Ascii.eqb_spec c "[") as [->|Hb]; simpl.
    { repeat split; try (intros []). right. exists "["%char, s. split; [now left | reflexivity]. }
    destruct (Ascii.eqb_spec c "(") as [->|Hp]; simpl.
    { repeat split; try (intros []). right. exists "("%char, s. split; [now right | reflexivity]. }
    split; [|split].
    + intros [E|E]; [now apply Hb | now apply H1].
    + intros [E|E]; [now apply Hp | now apply H2].
    + destruct H3 as [H3|[d [rest [Hd H3]]]].
      * left. now rewrite <- H3.
      * right. exists d, rest. split; [assumption|]. simpl. now rewrite <- H3.
Qed.

Lemma leading_part_unique (s run : string) :
  leading_part s run -> Re.leading_run s = run.
Proof.
  revert s. induction run as [|c run IH]; intros s [H1 [H2 H3]].
  - destruct H3 as [->|[d [rest [Hd ->]]]]; [reflexivity|].
    simpl. unfold Re.not_bracket. now destruct Hd as [->| ->].
  - assert (Hb : c <> "["%char) by (intros E; apply H1; now left).
    assert (Hp : c <> "("%char) by (intros E; apply H2; now left).
    assert (Hs : exists s', s = String c s' /\ leading_part s' run).
    { destruct H3 as [->|[d [rest [Hd ->]]]].
      - exists run. split; [reflexivity|].
        split; [|split]; [intros E; apply H1; now right
                         | intros E; apply H2; now right | now left].
      - exists (run ++ String d rest). split; [reflexivity|].
        split; [|split]; [intros E; apply H1; now right
                         | intros E; apply H2; now right |].
        right. now exists d, rest. }
    destruct Hs as [s' [-> Hs']]. simpl. unfold Re.not_bracket.
    destruct (Ascii.eqb_spec c "["); [contradiction|].
    destruct (Ascii.eqb_spec c "("); [contradiction|]. simpl.
    now rewrite (IH s' Hs').
Qed.

Lemma chop_newline_append (body : string) :
  Re.chop_newline (body ++ String Re.LF "") = Some body.
Proof.
  induction body as [|c body IH]; [reflexivity|].
  change (String c body ++ String Re.LF "")
    with (String c (body ++ String Re.LF "")).
  simpl. rewrite IH. now destruct body.
Qed.

Lemma chop_newline_Some (s body : string) :
  Re.chop_newline s = Some body -> s = body ++ String Re.LF "".
Proof.
  revert body. induction s as [|c s IH]; intros body; simpl; [discriminate|].
  destruct s as [|d s].
  - destruct (Ascii.eqb_spec c Re.LF) as [->|]; [|discriminate].
    now intros [= <-].
  - destruct (Re.chop_newline (String d s)) as [b|]; [|discriminate].
    simpl. intros [= <-]. simpl. now rewrite (IH b eq_refl).
Qed.

Lemma chop_newline_None (s : string) :
  Re.chop_newline s = None <-> last_char s <> Some Re.LF.
Proof.
  induction s as [|c s IH]; simpl.
  - split; [discriminate | reflexivity].
  - destruct s as [|d s].
    + destruct (Ascii.eqb_spec c Re.LF) as [->|Hne]; split; congruence.
    + rewrite <- IH. now destruct (Re.chop_newline (String d s)).
Qed.

Lemma last_char_newline (body : string) :
  last_char (body ++ String Re.LF "") = Some Re.LF.
Proof. now rewrite last_char_append. Qed.

Lemma sub_trailing_blanks_trimmed (run : string) :
  blank_trimmed run (Re.sub_trailing_blanks run).
Proof.
  unfold Re.sub_trailing_blanks. destruct (Re.chop_newline run) as [body|] eqn:E.
  - left. exists body, (Py.rstrip_by Re.is_blank body).
    split; [now apply chop_newline_Some|].
    split; [apply rstrip_rtrimmed | reflexivity].
  - right. split; [now apply chop_newline_None | apply rstrip_rtrimmed].
Qed.

Lemma blank_trimmed_unique (run t : string) :
  blank_trimmed run t -> Re.sub_trailing_blanks run = t.
Proof.
  unfold Re.sub_trailing_blanks.
  intros [[body [t0 [-> [Hb ->]]]] | [Hl Hr]].
  - rewrite chop_newline_append. now rewrite (rtrimmed_unique _ _ _ Hb).
  - apply chop_newline_None in Hl. rewrite Hl. now apply rtrimmed_unique.
Qed.

(** The value the Key Builder computes for one brand name. *)
Lemma clean_cell_cleaned (m : na_cast) (brand : cell) :
  cleaned_name m brand
    (Ser.str_replace_trailing (Ser.astype_str m (Ser.str_extract brand))).
Proof.
  destruct brand as [s|]; simpl.
  - intros run Hrun. apply leading_part_unique in Hrun.
    unfold Re.extract_leading. rewrite Hrun. split.
    + intros ->. now destruct m.
    + intros Hne. destruct run as [|c run]; [congruence|]. simpl.
      eexists. split; [apply sub_trailing_blanks_trimmed | reflexivity].
  - now destruct m.
Qed.

Lemma clean_and_merge_supergroup_clean (m : na_cast) (df : DataFrame)
      (brand : Series) :
  Pd.getitem df "BRAND1_VALIDATED" = Ok brand ->
  exists out,
    clean_and_merge_supergroup m df = Ok out /\
    Pd.getitem out "BRAND_1_CLEAN"
    = Ok (map (fun c => Ser.str_replace_trailing
                          (Ser.astype_str m (Ser.str_extract c))) brand).
Proof.
  intros Hb. unfold clean_and_merge_supergroup. rewrite Hb. simpl.
  rewrite getitem_setitem_same. simpl. rewrite map_map.
  set (df1 := Pd.setitem _ "BRAND_1_CLEAN" _).
  destruct (Pd.has_column "SUPER_GROUP" df1) eqn:E1.
  - destruct (getitem_present _ _ E1) as [sg ->]. simpl.
    unfold df1 at 1. rewrite getitem_setitem_same. simpl.
    eexists. split; [reflexivity|].
    rewrite getitem_setitem_other by discriminate.
    apply getitem_setitem_same.
  - destruct (Pd.has_column "SUPER_GROUP_DSCR" df1) eqn:E2.
    + destruct (getitem_present _ _ E2) as [sg ->]. simpl.
      unfold df1 at 1. rewrite getitem_setitem_same. simpl.
      eexists. split; [reflexivity|].
      rewrite getitem_setitem_other by discriminate.
      apply getitem_setitem_same.
    + eexists. split; [reflexivity|]. apply getitem_setitem_same.
Qed.

End CleanFacts.

(** C3 (amended).  On a table with distinct labels whose brand-name column,
    and whose super-group column if it has one, hold a text value, the Key
    Builder returns and fills the cleaned-brand-name column row by row.
    Where the part of the brand name before its first '[' or '(' (all of it
    when it has neither) is not empty, the cleaned name is that part without
    its trailing blanks (blanks before a line feed that ends it are removed
    too).  Where the brand name is missing, or that part is empty, the
    cleaned name is what [astype(str)] makes of a missing value: the text
    "nan" before pandas 3.0, a missing value from 3.0 on. *)
Theorem cleaned_brand_name (m : na_cast) (df : DataFrame) (brand : Series) :
  distinct_labels df ->
  Pd.getitem df "BRAND1_VALIDATED" = Ok brand ->
  text_column brand ->
  super_group_text df ->
  exists out clean,
    clean_and_merge_supergroup m df = Ok out /\
    Pd.getitem out "BRAND_1_CLEAN" = Ok clean /\
    Forall2 (cleaned_name m) brand clean.
Proof.
  intros _ Hb _ _. destruct (clean_and_merge_supergroup_clean m df brand Hb)
    as [out [H1 H2]].
  exists out. eexists. split; [exact H1 | split; [exact H2|]].
  clear. induction brand as [|c brand IH]; simpl; constructor;
    [apply clean_cell_cleaned | exact IH].
Qed.

Lemma cleaned_brand_name_witness :
  exists out,
    clean_and_merge_supergroup NaAsText
      [("SUPER_GROUP", [Some "EMEA"; None]);
       ("BRAND1_VALIDATED", [Some "Acme (Group)"; None])] = Ok out /\
    Pd.getitem out "BRAND_1_CLEAN" = Ok [Some "Acme"; Some "nan"].
Proof.
  assert (D : distinct_labels
                [("SUPER_GROUP", [Some "EMEA"; None]);
                 ("BRAND1_VALIDATED", [Some "Acme (Group)"; None])]).
  { unfold distinct_labels. simpl.
    constructor; [intros [H|[]]; discriminate H|].
    constructor; [intros [] | constructor]. }
  assert (T : text_column [Some "Acme (Group)"; None]).
  { apply Exists_cons_hd. discriminate. }
  assert (S : super_group_text
                [("SUPER_GROUP", [Some "EMEA"; None]);
                 ("BRAND1_VALIDATED", [Some "Acme (Group)"; None])]).
  { split.
    - intros sg [= <-]. apply Exists_cons_hd. discriminate.
    - intros H. discriminate H. }
  destruct (cleaned_brand_name NaAsText
              [("SUPER_GROUP", [Some "EMEA"; None]);
               ("BRAND1_VALIDATED", [Some "Acme (Group)"; None])]
              [Some "Acme (Group)"; None] D eq_refl T S)
    as [out [clean [H1 [H2 _]]]].
  exists out. split; [exact H1|].
  cbv in H1. injection H1 as <-. reflexivity.
Defined.

(** C3, counterexample.  The brand name "(X)" has an empty part before its
    first bracket, yet its cleaned name is not the empty text; and before
    pandas 3.0 a missing brand name gets the text "nan", not a missing
    value. *)
Lemma cleaned_brand_name_not_always_leading_run :
  clean_and_merge_supergroup NaAsText
    [("BRAND1_VALIDATED", [Some "(X)"; None])]
  = Ok [("BRAND1_VALIDATED", [Some "(X)"; None]);
        ("BRAND_1_CLEAN", [Some "nan"; Some "nan"])] /\
  clean_and_merge_supergroup NaKept
    [("BRAND1_VALIDATED", [Some "(X)"; None])]
  = Ok [("BRAND1_VALIDATED", [Some "(X)"; None]);
        ("BRAND_1_CLEAN", [None; None])].
Proof. split; reflexivity. Qed.

(** * Validation stage: the spacing fix *)

Section SpacingFacts.
Local Open Scope string_scope.

Lemma sub_paren_step (c d : ascii) (r : string) :
  Re.sub_paren (String c (String d r))
  = if negb (Py.isspace c) && Ascii.eqb d "("
    then String c (String " " (String "(" (Re.sub_paren r)))
    else String c (Re.sub_paren (String d r)).
Proof. reflexivity. Qed.

Lemma sub_paren_space_parens (c : ascii) (r : string) :
  double_paren (String c r) = false ->
  Re.sub_paren (String c r) = String c (space_after c r).
Proof.
  revert c. induction r as [|d r IH]; intros c H; [reflexivity|].
  cbn [double_paren first_char] in H. apply orb_false_elim in H.
  destruct H as [Hcd Hd]. specialize (IH d Hd).
  rewrite sub_paren_step. cbn [space_after].
  destruct (negb (Py.isspace c) && Ascii.eqb d "(") eqn:Hm.
  - apply andb_prop in Hm. destruct Hm as [_ Hp].
    apply Ascii.eqb_eq in Hp. subst d. do 3 f_equal.
    destruct r as [|e r]; [reflexivity|].
    cbn [double_paren first_char] in Hd. apply orb_false_elim in Hd.
    destruct Hd as [He _]. simpl in He.
    rewrite sub_paren_step in IH. change (Py.isspace "(") with false in IH.
    simpl negb in IH. cbn [andb] in IH. rewrite He in IH.
    now injection IH.
  - now rewrite IH.
Qed.

Lemma sub_paren_token (t : string) :
  double_paren t = false -> Re.sub_paren t = space_parens t.
Proof.
  destruct t as [|c r]; [reflexivity|]. apply sub_paren_space_parens.
Qed.

Lemma settled_fixed (s : string) : settled s = true -> Re.sub_paren s = s.
Proof.
  induction s as [|c s IH]; [reflexivity|].
  cbn [settled]. intros H. apply andb_prop in H. destruct H as [Hc Hs].
  specialize (IH Hs). destruct s as [|d s]; [reflexivity|].
  rewrite sub_paren_step. cbn [first_char] in Hc.
  destruct (Py.isspace c); cbn [negb andb orb] in Hc |- *.
  - now rewrite IH.
  - apply negb_true_iff in Hc. rewrite Hc. now rewrite IH.
Qed.

Lemma space_after_settled (c : ascii) (r : string) :
  settled (String c (space_after c r)) = true.
Proof.
  revert c. induction r as [|d r IH]; intros c; [reflexivity|].
  cbn [space_after]. specialize (IH d).
  destruct (negb (Py.isspace c) && Ascii.eqb d "(") eqn:Hm.
  - cbn [settled first_char] in *. rewrite IH.
    change (Ascii.eqb " " "(") with false. change (Py.isspace " ") with true.
    now rewrite orb_true_r.
  - cbn [settled first_char] in *. rewrite IH.
    destruct (Py.isspace c); [reflexivity|]. simpl in Hm. now rewrite Hm.
Qed.

Lemma space_parens_settled (t : string) : settled (space_parens t) = true.
Proof. destruct t; [reflexivity | apply space_after_settled]. Qed.

Lemma space_after_occurs (x prev : ascii) (s : string) :
  occurs x (space_after prev s) -> x = " "%char \/ occurs x s.
Proof.
  revert prev. induction s as [|c s IH]; intros prev; [intros []|].
  cbn [space_after].
  destruct (negb (Py.isspace prev) && Ascii.eqb c "("); simpl.
  - intros [E|[E|E]]; [now left | right; now left |].
    destruct (IH _ E); [now left | right; now right].
  - intros [E|E]; [right; now left |].
    destruct (IH _ E); [now left | right; now right].
Qed.

Lemma space_parens_no_sep (t : string) :
  ~ occurs ";" t -> ~ occurs ";" (space_parens t).
Proof.
  destruct t as [|c r]; [intros _ []|]. simpl. intros H [E|E].
  - apply H. now left.
  - apply space_after_occurs in E. destruct E as [E|E]; [discriminate|].
    apply H. now right.
Qed.

Lemma first_char_split_head (sep e : ascii) (s : string) :
  first_char (Py.split_head sep s) = Some e -> first_char s = Some e.
Proof.
  destruct s as [|c s]; [discriminate|]. rewrite split_head_cons.
  now destruct (Ascii.eqb c sep).
Qed.

Lemma double_paren_split (sep : ascii) (s : string) :
  double_paren s = false ->
  Forall (fun t => double_paren t = false) (Py.split sep s).
Proof.
  induction s as [|c s IH]; intros H.
  - repeat constructor.
  - cbn [double_paren] in H. apply orb_false_elim in H.
    destruct H as [Hc Hs]. specialize (IH Hs).
    pose proof (first_char_split_head sep) as Hf. unfold Py.split_head in Hf.
    specialize (fun e => Hf e s). simpl.
    destruct (Ascii.eqb c sep); [constructor; [reflexivity | exact IH]|].
    pose proof (split_not_nil sep s) as Hn.
    destruct (Py.split sep s) as [|t ts]; [contradiction|].
    inversion IH as [|? ? Ht Hts]; subst. constructor; [|exact Hts].
    cbn [double_paren]. rewrite Ht, orb_false_r. simpl hd in Hf.
    destruct (first_char t) as [e|] eqn:Et; [|now rewrite andb_false_r].
    now rewrite (Hf e eq_refl) in Hc.
Qed.

Lemma fix_spacing_by_tokens (val : string) :
  double_paren val = false ->
  fix_spacing (Some val)
  = Some (Py.join ";" (map space_parens (Py.split ";" val))).
Proof.
  intros H. unfold fix_spacing. do 2 f_equal.
  pose proof (double_paren_split ";" val H) as Hall.
  induction Hall as [|t ts Ht _ IH]; [reflexivity|].
  simpl. now rewrite IH, sub_paren_token.
Qed.

Lemma fix_spacing_settled_tokens (parts : list string) :
  parts <> [] -> Forall (fun t => ~ occurs ";" t) parts ->
  fix_spacing (Some (Py.join ";" (map space_parens parts)))
  = Some (Py.join ";" (map space_parens parts)).
Proof.
  intros Hne Hall. unfold fix_spacing. do 2 f_equal.
  rewrite split_join.
  - rewrite map_map. apply map_ext. intros t. apply settled_fixed.
    apply space_parens_settled.
  - destruct parts; [congruence | discriminate].
  - apply Forall_map. revert Hall. apply Forall_impl.
    exact space_parens_no_sep.
Qed.

End SpacingFacts.

(** C8 (amended).  The spacing fix leaves a missing value as it is, turns
    "Brand(Group)" into "Brand (Group)" and leaves "Brand (Group)" as it
    is.  On a value with no two '(' in a row it puts, in each ';'-separated
    token, one blank before every '(' that directly follows a character of
    the token that is not white space, and applying it twice gives what
    applying it once gives. *)
Theorem fix_spacing_without_double_paren :
  fix_spacing None = None /\
  fix_spacing (Some "Brand(Group)") = Some "Brand (Group)" /\
  fix_spacing (Some "Brand (Group)") = Some "Brand (Group)" /\
  forall val,
    double_paren val = false ->
    fix_spacing (Some val)
    = Some (Py.join ";" (map space_parens (Py.split ";" val))) /\
    fix_spacing (fix_spacing (Some val)) = fix_spacing (Some val).
Proof.
  repeat (split; [reflexivity|]). intros val H.
  rewrite (fix_spacing_by_tokens val H). split; [reflexivity|].
  apply fix_spacing_settled_tokens.
  - apply split_not_nil.
  - apply split_no_sep.
Qed.

Lemma fix_spacing_without_double_paren_witness :
  double_paren "O1;Brand(Group);Brand (EU)" = false /\
  fix_spacing (Some "O1;Brand(Group);Brand (EU)")
  = Some "O1;Brand (Group);Brand (EU)" /\
  fix_spacing (fix_spacing (Some "O1;Brand(Group);Brand (EU)"))
  = fix_spacing (Some "O1;Brand(Group);Brand (EU)").
Proof.
  split; [reflexivity|].
  exact (proj2 (proj2 (proj2 fix_spacing_without_double_paren))
           "O1;Brand(Group);Brand (EU)" eq_refl).
Defined.

(** C8, counterexample.  In "a((" the second '(' follows a '(' , which is
    not white space, yet one pass puts no blank before it; a second pass
    does, so the fix applied twice differs from the fix applied once. *)
Lemma fix_spacing_not_idempotent :
  fix_spacing (Some "a((") = Some "a ((" /\
  fix_spacing (fix_spacing (Some "a((")) = Some "a ( (" /\
  fix_spacing (fix_spacing (Some "a((")) <> fix_spacing (Some "a((").
Proof. repeat split. discriminate. Qed.

(** * Ownership Suggester *)

Section OrderFacts.

Lemma compare_refl (a : string) : String.compare a a = Eq.
Proof. now apply String_as_OT.cmp_eq. Qed.

Lemma compare_Eq (a b : string) : String.compare a b = Eq <-> a = b.
Proof. apply String_as_OT.cmp_eq. Qed.

Lemma compare_Lt_trans (a b c : string) :
  String.compare a b = Lt -> String.compare b c = Lt ->
  String.compare a c = Lt.
Proof.
  intros H1 H2. apply String_as_OT.cmp_lt in H1, H2.
  apply String_as_OT.cmp_lt. eapply String_as_OT.lt_trans; eassumption.
Qed.

Lemma compare_Gt (a b : string) :
  String.compare a b = Gt <-> String.compare b a = Lt.
Proof.
  rewrite (String.compare_antisym b a).
  destruct (String.compare a b); simpl; split; congruence.
Qed.

Lemma compare_Lt_irrefl (a : string) : String.compare a a <> Lt.
Proof. rewrite compare_refl. discriminate. Qed.




Lemma pair_lt_iff (p q : string * string) :
  pair_lt p q <->
  String.compare (fst p) (fst q) = Lt \/
  (fst p = fst q /\ String.compare (snd p) (snd q) = Lt).
Proof.
  unfold pair_lt, Suggest.cmp_labels.
  destruct (String.compare (fst p) (fst q)) eqn:E.
  - apply compare_Eq in E. split.
    + intros H. right. now split.
    + intros [H|[_ H]]; [discriminate | exact H].
  - split; [now left | reflexivity].
  - split; [discriminate|]. intros [H|[H _]]; [discriminate|].
    rewrite H, compare_refl in E. discriminate.
Qed.

Lemma pair_lt_trans (p q r : string * string) :
  pair_lt p q -> pair_lt q r -> pair_lt p r.
Proof.
  rewrite !pair_lt_iff. intros [H1|[E1 H1]] [H2|[E2 H2]].
  - left. eapply compare_Lt_trans; eassumption.
  - left. now rewrite <- E2.
  - left. now rewrite E1.
  - right. split; [congruence | eapply compare_Lt_trans; eassumption].
Qed.

Lemma pair_lt_irrefl (p : string * string) : ~ pair_lt p p.
Proof.
  rewrite pair_lt_iff. intros [H|[_ H]]; now apply compare_Lt_irrefl in H.
Qed.

Lemma cmp_labels_Eq (k1 o1 k2 o2 : string) :
  Suggest.cmp_labels k1 o1 k2 o2 = Eq -> k1 = k2 /\ o1 = o2.
Proof.
  unfold Suggest.cmp_labels.
  destruct (String.compare k1 k2) eqn:E; try discriminate.
  intros H. split; now apply compare_Eq.
Qed.

Lemma cmp_labels_Gt (k1 o1 k2 o2 : string) :
  Suggest.cmp_labels k1 o1 k2 o2 = Gt -> pair_lt (k2, o2) (k1, o1).
Proof.
  unfold Suggest.cmp_labels. rewrite pair_lt_iff. simpl.
  destruct (String.compare k1 k2) eqn:E; try discriminate.
  - apply compare_Eq in E. intros H. right. split; [congruence|].
    now apply compare_Gt.
  - intros _. left. now apply compare_Gt.
Qed.


End OrderFacts.

Section TallyFacts.

Lemma total_tally (p : string * string) (groups : list Group) (k o : string) :
  total (Suggest.tally p groups) k o
  = (if String.eqb (fst p) k && String.eqb (snd p) o then 1 else 0)
    + total groups k o.
Proof.
  induction groups as [|g rest IH]; simpl; [reflexivity|].
  destruct (Suggest.cmp_labels (fst p) (snd p) (g_key g) (g_owner g)) eqn:E;
    simpl.
  - apply cmp_labels_Eq in E. destruct E as [-> ->].
    destruct (String.eqb (g_key g) k && String.eqb (g_owner g) o); lia.
  - reflexivity.
  - rewrite IH. lia.
Qed.

Lemma total_groupby_size (keys owners : Series) (k o : string) :
  total (Suggest.groupby_size keys owners) k o = votes keys owners k o.
Proof.
  unfold Suggest.groupby_size, votes. revert owners.
  induction keys as [|x keys IH]; intros [|y owners]; try reflexivity.
  simpl. destruct x as [x|], y as [y|]; simpl; try apply IH.
  rewrite total_tally, IH. simpl.
  destruct (String.eqb x k && String.eqb y o); reflexivity.
Qed.

Lemma tally_labels (p q : string * string) (groups : list Group) :
  In q (map labels (Suggest.tally p groups)) <->
  q = p \/ In q (map labels groups).
Proof.
  induction groups as [|g rest IH]; simpl.
  - destruct p. unfold labels. simpl. intuition congruence.
  - destruct (Suggest.cmp_labels (fst p) (snd p) (g_key g) (g_owner g)) eqn:E;
      simpl.
    + apply cmp_labels_Eq in E. destruct E as [E1 E2].
      unfold labels at 1 3. simpl. destruct p as [pk po]. simpl in *. subst.
      intuition congruence.
    + destruct p. unfold labels at 1. simpl. intuition congruence.
    + rewrite IH. intuition congruence.
Qed.

Lemma tally_sorted (p : string * string) (groups : list Group) :
  StronglySorted pair_lt (map labels groups) ->
  StronglySorted pair_lt (map labels (Suggest.tally p groups)).
Proof.
  induction groups as [|g rest IH]; simpl; intros Hs.
  - repeat constructor.
  - apply StronglySorted_inv in Hs. destruct Hs as [Hs Hall].
    destruct (Suggest.cmp_labels (fst p) (snd p) (g_key g) (g_owner g)) eqn:E;
      simpl.
    + constructor; assumption.
    + assert (Hp : pair_lt p (labels g)) by exact E.
      constructor; [constructor; assumption|].
      constructor; [exact Hp|].
      revert Hall. apply Forall_impl. intros q. now apply pair_lt_trans.
    + apply cmp_labels_Gt in E. constructor; [now apply IH|].
      apply Forall_forall. intros q Hq. apply tally_labels in Hq.
      destruct Hq as [->|Hq].
      * now destruct p.
      * rewrite Forall_forall in Hall. now apply Hall.
Qed.

Lemma groupby_size_sorted (keys owners : Series) :
  StronglySorted pair_lt (map labels (Suggest.groupby_size keys owners)).
Proof.
  unfold Suggest.groupby_size.
  induction (Suggest.observed keys owners) as [|p l IH]; simpl.
  - constructor.
  - now apply tally_sorted.
Qed.

Lemma total_absent (groups : list Group) (k o : string) :
  ~ In (k, o) (map labels groups) -> total groups k o = 0.
Proof.
  induction groups as [|g rest IH]; simpl; [reflexivity|]. intros H.
  rewrite IH by tauto.
  destruct (String.eqb_spec (g_key g) k) as [E1|]; simpl; [|reflexivity].
  destruct (String.eqb_spec (g_owner g) o) as [E2|]; [|reflexivity].
  exfalso. apply H. left. unfold labels. congruence.
Qed.

Lemma total_present (groups : list Group) (k o : string) :
  0 < total groups k o ->
  exists g, In g groups /\ g_key g = k /\ g_owner g = o.
Proof.
  induction groups as [|g rest IH]; simpl; [lia|].
  destruct (String.eqb_spec (g_key g) k) as [E1|]; simpl.
  - destruct (String.eqb_spec (g_owner g) o) as [E2|].
    + intros _. exists g. auto.
    + intros H. destruct (IH H) as [x [Hx Hl]]. exists x. auto.
  - intros H. destruct (IH H) as [x [Hx Hl]]. exists x. auto.
Qed.

Lemma total_of_member (groups : list Group) (g : Group) :
  StronglySorted pair_lt (map labels groups) ->
  In g groups -> total groups (g_key g) (g_owner g) = g_count g.
Proof.
  induction groups as [|x rest IH]; simpl; [intros _ []|].
  intros Hs Hin. apply StronglySorted_inv in Hs. destruct Hs as [Hs Hall].
  rewrite Forall_forall in Hall. destruct Hin as [->|Hin].
  - rewrite !String.eqb_refl. simpl. rewrite total_absent; [lia|].
    intros Hq. apply Hall in Hq. now apply pair_lt_irrefl in Hq.
  - rewrite (IH Hs Hin).
    destruct (String.eqb_spec (g_key x) (g_key g)) as [E1|]; simpl;
      [|reflexivity].
    destruct (String.eqb_spec (g_owner x) (g_owner g)) as [E2|];
      [|reflexivity].
    exfalso. assert (Hq : pair_lt (labels x) (labels g)).
    { apply Hall. now apply in_map. }
    unfold labels in Hq. rewrite E1, E2 in Hq. now apply pair_lt_irrefl in Hq.
Qed.

End TallyFacts.

Section SortFacts.

Lemma insert_stable_In (a x : Group) (l : list Group) :
  In x (Suggest.insert_stable a l) <-> x = a \/ In x l.
Proof.
  induction l as [|b rest IH]; simpl; [intuition congruence|].
  destruct (Suggest.before b a); simpl; [rewrite IH|]; intuition congruence.
Qed.

Lemma sort_values_In (x : Group) (l : list Group) :
  In x (Suggest.sort_values l) <-> In x l.
Proof.
  unfold Suggest.sort_values. induction l as [|a rest IH]; simpl; [tauto|].
  rewrite insert_stable_In, IH. intuition congruence.
Qed.






End SortFacts.

Section DedupFacts.

Lemma existsb_eqb_In (k : string) (seen : list string) :
  existsb (String.eqb k) seen = true <-> In k seen.
Proof.
  rewrite existsb_exists. split.
  - intros [x [Hx E]]. apply String.eqb_eq in E. now subst.
  - intros H. exists k. split; [assumption | apply String.eqb_refl].
Qed.

Lemma drop_duplicates_first (seen : list string) (l : list Group) (d : Group) :
  In d (Suggest.drop_duplicates_from seen l) ->
  ~ In (g_key d) seen /\
  exists pre post,
    l = pre ++ d :: post /\ forall x, In x pre -> g_key x <> g_key d.
Proof.
  revert seen. induction l as [|g rest IH]; intros seen; simpl; [intros []|].
  destruct (existsb (String.eqb (g_key g)) seen) eqn:E.
  - apply existsb_eqb_In in E. intros Hd.
    destruct (IH _ Hd) as [Hs [pre [post [-> Hpre]]]].
    split; [assumption|]. exists (g :: pre), post. split; [reflexivity|].
    intros x [<-|Hx]; [congruence | now apply Hpre].
  - assert (Hg : ~ In (g_key g) seen).
    { intros H. apply existsb_eqb_In in H. congruence. }
    intros [<-|Hd].
    + split; [assumption|]. exists [], rest. split; [reflexivity | intros x []].
    + destruct (IH _ Hd) as [Hs [pre [post [-> Hpre]]]].
      split; [intros H; apply Hs; now right|].
      exists (g :: pre), post. split; [reflexivity|].
      intros x [<-|Hx]; [|now apply Hpre].
      intros H. apply Hs. now left.
Qed.

Lemma drop_duplicates_covers (seen : list string) (l : list Group) (g : Group) :
  In g l -> ~ In (g_key g) seen ->
  exists d, In d (Suggest.drop_duplicates_from seen l) /\ g_key d = g_key g.
Proof.
  revert seen. induction l as [|x rest IH]; intros seen; simpl; [intros []|].
  intros Hin Hs. destruct (existsb (String.eqb (g_key x)) seen) eqn:E.
  - apply existsb_eqb_In in E. destruct Hin as [->|Hin]; [contradiction|].
    now apply IH.
  - destruct Hin as [->|Hin]; [exists g; split; [now left | reflexivity]|].
    destruct (String.eqb_spec (g_key x) (g_key g)) as [Ek|Ek].
    + exists x. split; [now left | exact Ek].
    + destruct (IH (g_key x :: seen) Hin) as [d [Hd Hk]].
      * intros [H|H]; [contradiction | now apply Hs].
      * exists d. split; [now right | exact Hk].
Qed.

Lemma drop_duplicates_NoDup (seen : list string) (l : list Group) :
  NoDup (map g_key (Suggest.drop_duplicates_from seen l)).
Proof.
  revert seen. induction l as [|g rest IH]; intros seen; simpl; [constructor|].
  destruct (existsb (String.eqb (g_key g)) seen); [apply IH|].
  simpl. constructor; [|apply IH].
  intros H. apply in_map_iff in H. destruct H as [d [Hk Hd]].
  apply drop_duplicates_first in Hd. destruct Hd as [Hs _].
  apply Hs. left. congruence.
Qed.

Lemma drop_duplicates_subset (seen : list string) (l : list Group) (d : Group) :
  In d (Suggest.drop_duplicates_from seen l) -> In d l.
Proof.
  intros H. apply drop_duplicates_first in H.
  destruct H as [_ [pre [post [-> _]]]]. apply in_elt.
Qed.

End DedupFacts.

Section SuggestFacts.

Variables keys owners : Series.

Lemma votes_positive (k o : string) :
  0 < votes keys owners k o <-> In (Some k, Some o) (combine keys owners).
Proof.
  unfold votes. induction (combine keys owners) as [|[x y] l IH]; simpl.
  - split; [lia | intros []].
  - destruct x as [x|], y as [y|]; simpl;
      try (rewrite IH; split; [now right | intros [H|H]; [discriminate | exact H]]).
    destruct (String.eqb_spec x k) as [->|Hx]; simpl.
    + destruct (String.eqb_spec y o) as [->|Hy]; simpl.
      * split; [now left | lia].
      * rewrite IH. split; [now right | intros [H|H]; [congruence | exact H]].
    + rewrite IH. split; [now right | intros [H|H]; [congruence | exact H]].
Qed.

Lemma tally_positive (p : string * string) (groups : list Group) :
  Forall (fun g => 0 < g_count g) groups ->
  Forall (fun g => 0 < g_count g) (Suggest.tally p groups).
Proof.
  induction 1 as [|g rest Hg Hrest IH]; simpl.
  - repeat constructor.
  - destruct (Suggest.cmp_labels _ _ _ _); repeat constructor;
      simpl; try assumption; lia.
Qed.

Lemma groupby_size_positive :
  Forall (fun g => 0 < g_count g) (Suggest.groupby_size keys owners).
Proof.
  unfold Suggest.groupby_size.
  induction (Suggest.observed keys owners) as [|p l IH]; simpl;
    [constructor | now apply tally_positive].
Qed.

Lemma chosen_member (d : Group) :
  In d (chosen_rows keys owners) ->
  In d (Suggest.groupby_size keys owners) /\
  g_count d = votes keys owners (g_key d) (g_owner d) /\
  0 < votes keys owners (g_key d) (g_owner d).
Proof.
  unfold chosen_rows, Suggest.drop_duplicates. intros Hd.
  apply drop_duplicates_subset in Hd.
  apply (proj1 (sort_values_In _ _)) in Hd.
  assert (Hc : g_count d = votes keys owners (g_key d) (g_owner d)).
  { rewrite <- total_groupby_size. symmetry.
    apply total_of_member; [apply groupby_size_sorted | exact Hd]. }
  split; [exact Hd | split; [exact Hc|]].
  pose proof groupby_size_positive as Hp. rewrite Forall_forall in Hp.
  specialize (Hp d Hd). lia.
Qed.

Lemma chosen_NoDup : NoDup (map g_key (chosen_rows keys owners)).
Proof. apply drop_duplicates_NoDup. Qed.

Lemma chosen_covers (k o : string) :
  0 < votes keys owners k o -> exists d, In d (chosen_rows keys owners) /\ g_key d = k.
Proof.
  rewrite <- total_groupby_size. intros H.
  destruct (total_present _ _ _ H) as [g [Hg [Hk _]]].
  apply (proj2 (sort_values_In _ _)) in Hg.
  destruct (drop_duplicates_covers [] _ g Hg) as [d [Hd Hdk]]; [intros []|].
  exists d. split; [exact Hd | congruence].
Qed.


Lemma generate_boi_suggest_columns (ogrds_df : DataFrame) :
  Pd.getitem ogrds_df "SG_B1" = Ok keys ->
  Pd.getitem ogrds_df "BRAND_OWNER_INTERNATIONAL" = Ok owners ->
  generate_boi_suggest ogrds_df
  = Ok [("SG_B1", map (fun g => Some (g_key g)) (chosen_rows keys owners));
        ("BOI_SUGGEST", map (fun g => Some (g_owner g)) (chosen_rows keys owners))].
Proof. intros H1 H2. unfold generate_boi_suggest. now rewrite H1, H2. Qed.


Lemma chosen_keys_NoDup : NoDup (map (fun g => Some (g_key g)) (chosen_rows keys owners)).
Proof.
  pose proof chosen_NoDup as H. induction (chosen_rows keys owners) as [|g l IH]; simpl;
    [constructor|].
  inversion H as [|? ? Hn Hl]; subst. constructor; [|now apply IH].
  intros Hin. apply Hn. apply in_map_iff in Hin.
  destruct Hin as [x [[= Hx] Hin]]. rewrite <- Hx. now apply in_map.
Qed.

Lemma chosen_keys (c : cell) :
  In c (map (fun g => Some (g_key g)) (chosen_rows keys owners)) <->
  exists k o, c = Some k /\ In (Some k, Some o) (combine keys owners).
Proof.
  rewrite in_map_iff. split.
  - intros [d [<- Hd]]. exists (g_key d), (g_owner d). split; [reflexivity|].
    apply votes_positive. now apply chosen_member.
  - intros [k [o [-> Hin]]]. apply votes_positive in Hin.
    destruct (chosen_covers k o Hin) as [d [Hd <-]]. now exists d.
Qed.

End SuggestFacts.



(** C6 (amended).  The suggestion table has no entry keyed by a missing
    value: its join keys are exactly the join keys that occur, in some row
    of the reference table, together with an owner; rows whose join key is
    missing form no group. *)
Theorem generate_boi_suggest_no_null_key
        (ogrds_df : DataFrame) (keys owners : Series) :
  Pd.getitem ogrds_df "SG_B1" = Ok keys ->
  Pd.getitem ogrds_df "BRAND_OWNER_INTERNATIONAL" = Ok owners ->
  exists sk so,
    generate_boi_suggest ogrds_df = Ok [("SG_B1", sk); ("BOI_SUGGEST", so)] /\
    ~ In None sk /\
    forall c, In c sk <->
              exists k o, c = Some k /\ In (Some k, Some o) (combine keys owners).
Proof.
  intros H1 H2. eexists. eexists.
  split; [apply (generate_boi_suggest_columns keys owners _ H1 H2)|].
  split.
  - intros H. apply chosen_keys in H. destruct H as [k [o [E _]]].
    discriminate.
  - intros c. apply chosen_keys.
Qed.

Lemma generate_boi_suggest_no_null_key_witness :
  exists sk so,
    generate_boi_suggest
      [("SG_B1", [None; Some "K1"]);
       ("BRAND_OWNER_INTERNATIONAL", [Some "X"; Some "Y"])]
    = Ok [("SG_B1", sk); ("BOI_SUGGEST", so)] /\
    ~ In None sk.
Proof.
  destruct (generate_boi_suggest_no_null_key
              [("SG_B1", [None; Some "K1"]);
               ("BRAND_OWNER_INTERNATIONAL", [Some "X"; Some "Y"])]
              [None; Some "K1"] [Some "X"; Some "Y"] eq_refl eq_refl)
    as [sk [so [H [Hn _]]]].
  exists sk, so. split; assumption.
Defined.

(** C6, counterexample.  Two rows of the reference table have a missing
    join key; the suggestion table has one entry, for "K1", and none keyed
    by a missing value. *)
Lemma generate_boi_suggest_drops_null_key :
  generate_boi_suggest
    [("SG_B1", [None; None; Some "K1"]);
     ("BRAND_OWNER_INTERNATIONAL", [Some "X"; Some "X"; Some "Y"])]
  = Ok [("SG_B1", [Some "K1"]); ("BOI_SUGGEST", [Some "Y"])].
Proof. reflexivity. Qed.

(** * Suggestion Merger *)

Section MergeFacts.

Lemma keys_match_eq (a b : cell) : Merge.keys_match a b = true <-> a = b.
Proof.
  destruct a as [x|], b as [y|]; simpl; try (split; congruence).
  rewrite String.eqb_eq. split; congruence.
Qed.

Lemma hits_cons (r : cell) (rest : Series) (k : cell) :
  Merge.hits (r :: rest) k
  = (if Merge.keys_match k r then [0] else []) ++ map S (Merge.hits rest k).
Proof.
  unfold Merge.hits. simpl List.length. cbn [seq filter nth].
  rewrite <- seq_shift.
  assert (E : forall l,
             filter (fun j => Merge.keys_match k (nth j (r :: rest) None))
                    (map S l)
             = map S (filter (fun j => Merge.keys_match k (nth j rest None)) l)).
  { induction l as [|j l IH]; [reflexivity|].
    cbn [map filter]. rewrite IH. cbn [nth].
    now destruct (Merge.keys_match k (nth j rest None)). }
  rewrite E. now destruct (Merge.keys_match k r).
Qed.

Lemma hits_absent (rkeys : Series) (k : cell) :
  ~ In k rkeys -> Merge.hits rkeys k = [].
Proof.
  induction rkeys as [|r rest IH]; [reflexivity|]. intros H.
  rewrite hits_cons, IH by (intros E; apply H; now right).
  destruct (Merge.keys_match k r) eqn:E; [|reflexivity].
  apply keys_match_eq in E. exfalso. apply H. now left.
Qed.

Lemma hits_at_most_one (rkeys : Series) (k : cell) :
  NoDup rkeys -> List.length (Merge.hits rkeys k) <= 1.
Proof.
  induction 1 as [|r rest Hr Hrest IH]; [simpl; lia|].
  rewrite hits_cons, length_app, length_map.
  destruct (Merge.keys_match k r) eqn:E; simpl; [|exact IH].
  apply keys_match_eq in E. subst r. rewrite hits_absent by assumption.
  simpl. lia.
Qed.

Lemma left_column_single (found : list (list nat)) (col : Series) :
  Forall (fun js => List.length js <= 1) found ->
  List.length col = List.length found ->
  Merge.left_column found col = col.
Proof.
  unfold Merge.left_column. intros Hall. revert col.
  induction Hall as [|js found Hjs _ IH]; intros [|c col];
    cbn [combine flat_map List.length]; try reflexivity; try discriminate.
  intros [= Hlen]. rewrite (IH col Hlen).
  destruct js as [|j [|j' js]]; simpl in *; try reflexivity; lia.
Qed.

Lemma right_column_single (found : list (list nat)) (col : Series) :
  Forall (fun js => List.length js <= 1) found ->
  Merge.right_column found col
  = map (fun js => match js with
                   | [] => None
                   | j :: _ => nth j col None
                   end) found.
Proof.
  unfold Merge.right_column.
  induction 1 as [|js found Hjs _ IH]; cbn [flat_map map]; [reflexivity|].
  rewrite IH. destruct js as [|j [|j' js]]; simpl in *; try reflexivity; lia.
Qed.



End MergeFacts.



(** * The pipeline *)

Lemma process_pipeline_stages (m : na_cast) (eu_df ogrds_df : DataFrame) :
  process_pipeline m eu_df ogrds_df
  = (eu_df <- pipeline_through_merge m eu_df ogrds_df ;;
     eu_df <- apply_spacing_fix eu_df ;;
     Ok (apply_gbe_validation eu_df)).
Proof.
  unfold process_pipeline, pipeline_through_merge.
  destruct (split_brand_columns eu_df) as [eu1|]; [|reflexivity]. simpl.
  destruct (split_brand_columns ogrds_df) as [og1|]; [|reflexivity]. simpl.
  destruct (clean_and_merge_supergroup m eu1) as [eu2|]; [|reflexivity]. simpl.
  destruct (clean_and_merge_supergroup m og1) as [og2|]; [|reflexivity]. simpl.
  destruct (generate_boi_suggest og2) as [boi|]; reflexivity.
Qed.

(** C1 (amended).  On the two tables of the end-to-end example, once the
    reference table also carries the owner column BRAND_OWNER_INTERNATIONAL
    with "O1", the Column Splitter, the Key Builder, the Ownership Suggester
    and the Suggestion Merger complete; the one primary row then has
    BOI_SUGGEST "O1", and the GBE check answers "Missing Data" on it. *)
Theorem pipeline_example_with_owner (m : na_cast) :
  exists merged,
    pipeline_through_merge m eu_example ogrds_example_with_owner = Ok merged /\
    Pd.getitem merged "SG_B1" = Ok [Some "EMEA Acme"] /\
    Pd.getitem merged "BOI_SUGGEST" = Ok [Some "O1"] /\
    map check_gbe_match (Pd.iterrows merged) = ["Missing Data"].
Proof.
  destruct m; eexists; (split; [vm_compute; reflexivity|]);
    repeat split; reflexivity.
Qed.

(** C1, counterexample.  On the two tables exactly as the example gives them
    the pipeline does not complete: the reference table has no
    BRAND_OWNER_INTERNATIONAL column and the Ownership Suggester raises. *)
Lemma process_pipeline_example_aborts :
  process_pipeline NaAsText eu_example ogrds_example
  = Raise (KeyError "BRAND_OWNER_INTERNATIONAL") /\
  process_pipeline NaKept eu_example ogrds_example
  = Raise (KeyError "BRAND_OWNER_INTERNATIONAL").
Proof. split; reflexivity. Qed.

(** With the owner column in place the run still stops after the merger:
    the spacing fix reads BRAND_VALIDATED, which a primary table that has
    only BRAND_1 does not carry. *)
Remark process_pipeline_example_spacing_fix (m : na_cast) :
  process_pipeline m eu_example ogrds_example_with_owner
  = Raise (KeyError "BRAND_VALIDATED").
Proof. destruct m; reflexivity. Qed.

(** * Reading the archive *)

Section NameFacts.
Local Open Scope string_scope.

Lemma endswith_spec (s suffix : string) :
  Py.endswith s suffix = true <-> is_suffix suffix s.
Proof.
  unfold is_suffix. split.
  - induction s as [|c s IH]; cbn [Py.endswith].
    + rewrite orb_false_r. intros H. apply String.eqb_eq in H. subst.
      now exists "".
    + intros H. apply orb_prop in H. destruct H as [H|H].
      * apply String.eqb_eq in H. rewrite H. now exists "".
      * destruct (IH H) as [pre ->]. now exists (String c pre).
  - intros [pre ->]. induction pre as [|c pre IH].
    + destruct suffix; cbn [Py.endswith append]; now rewrite String.eqb_refl.
    + cbn [Py.endswith append]. rewrite IH. apply orb_true_r.
Qed.

Lemma contains_unfold (needle s : string) :
  Py.contains needle s
  = String.prefix needle s ||
    match s with
    | "" => false
    | String _ r => Py.contains needle r
    end.
Proof. now destruct s. Qed.

Lemma contains_spec (needle s : string) :
  Py.contains needle s = true <-> is_substring needle s.
Proof.
  unfold is_substring. split.
  - induction s as [|c s IH]; rewrite contains_unfold; intros H;
      apply orb_prop in H; destruct H as [H|H]; try discriminate.
    + apply (proj1 (startswith_spec "" needle)) in H.
      destruct H as [post H]. now exists "", post.
    + apply (proj1 (startswith_spec (String c s) needle)) in H.
      destruct H as [post H]. now exists "", post.
    + destruct (IH H) as [pre [post ->]]. now exists (String c pre), post.
  - intros [pre [post ->]]. induction pre as [|c pre IH].
    + rewrite contains_unfold.
      assert (H : String.prefix needle (needle ++ post) = true).
      { apply (proj2 (startswith_spec (needle ++ post) needle)).
        now exists post. }
      cbn [append]. now rewrite H.
    + rewrite contains_unfold. cbn [append]. rewrite IH. apply orb_true_r.
Qed.

End NameFacts.

Section ArchiveFacts.

Lemma first_named_Some (needle : string) (file_list : list string)
      (f : string) :
  first_named needle file_list = Some f <->
  exists before after,
    file_list = before ++ f :: after /\
    named needle f /\
    forall g, In g before -> ~ named needle g.
Proof.
  unfold first_named, named. split.
  - induction file_list as [|x l IH]; simpl; [discriminate|].
    destruct (Py.contains needle (Py.lower x)) eqn:E.
    + intros [= <-]. exists [], l. split; [reflexivity|].
      split; [now apply contains_spec | intros g []].
    + intros H. destruct (IH H) as [before [after [-> [Hf Hb]]]].
      exists (x :: before), after. split; [reflexivity|].
      split; [exact Hf|]. intros g [<-|Hg]; [|now apply Hb].
      intros Hx. apply contains_spec in Hx. congruence.
  - intros [before [after [-> [Hf Hb]]]]. apply contains_spec in Hf.
    induction before as [|x before IH]; simpl.
    + now rewrite Hf.
    + destruct (Py.contains needle (Py.lower x)) eqn:E.
      * exfalso. apply (Hb x); [now left | now apply contains_spec].
      * apply IH. intros g Hg. apply Hb. now right.
Qed.

Lemma first_named_None (needle : string) (file_list : list string) :
  first_named needle file_list = None <->
  forall f, In f file_list -> ~ named needle f.
Proof.
  unfold first_named, named. split.
  - intros H f Hin Hf. apply contains_spec in Hf.
    pose proof (find_none _ _ H f Hin) as Hn. simpl in Hn. congruence.
  - intros H. destruct (find _ file_list) as [f|] eqn:E; [|reflexivity].
    apply find_some in E. destruct E as [Hin Hf]. exfalso.
    apply (H f Hin). now apply contains_spec.
Qed.

End ArchiveFacts.

(** X1.  A member of the archive is read by the extension of its name,
    lower case only: by [read_csv] when the name ends with ".csv", by
    [read_excel] when it ends with ".xls" or ".xlsx" and not with ".csv",
    and not at all otherwise. *)
Theorem read_uploaded_file_by_extension
        (bytes : Type) (read_csv read_excel : bytes -> DataFrame)
        (file : bytes) (filename : string) :
  (is_suffix ".csv" filename ->
   read_uploaded_file bytes read_csv read_excel file filename
   = Some (read_csv file)) /\
  (~ is_suffix ".csv" filename ->
   is_suffix ".xls" filename \/ is_suffix ".xlsx" filename ->
   read_uploaded_file bytes read_csv read_excel file filename
   = Some (read_excel file)) /\
  (read_uploaded_file bytes read_csv read_excel file filename = None <->
   ~ is_suffix ".csv" filename /\ ~ is_suffix ".xls" filename /\
   ~ is_suffix ".xlsx" filename).
Proof.
  unfold read_uploaded_file.
  destruct (Py.endswith filename ".csv") eqn:E1;
    destruct (Py.endswith filename ".xls") eqn:E2;
    destruct (Py.endswith filename ".xlsx") eqn:E3; simpl;
    repeat match goal with
           | H : Py.endswith _ _ = true |- _ => apply endswith_spec in H
           | H : Py.endswith _ _ = false |- _ =>
               apply not_true_iff_false in H; rewrite endswith_spec in H
           end;
    (split; [|split; [|split]]); try tauto; try discriminate;
    intros; try reflexivity; try tauto.
Qed.

Lemma read_uploaded_file_by_extension_witness :
  read_uploaded_file unit (fun _ => []) (fun _ => [("Sheet1", [])]) tt
                     "eu_data.CSV" = None /\
  read_uploaded_file unit (fun _ => []) (fun _ => [("Sheet1", [])]) tt
                     "ogrds_data.xlsx" = Some [("Sheet1", [])].
Proof.
  split.
  - apply (proj2 (proj2 (read_uploaded_file_by_extension
                           unit (fun _ => []) (fun _ => [("Sheet1", [])])
                           tt "eu_data.CSV"))).
    repeat split; intros H; apply endswith_spec in H; discriminate.
  - apply (proj1 (proj2 (read_uploaded_file_by_extension
                           unit (fun _ => []) (fun _ => [("Sheet1", [])])
                           tt "ogrds_data.xlsx"))).
    + intros H. apply endswith_spec in H. discriminate.
    + right. now exists "ogrds_data".
Defined.

Section IdentifyFacts.

Variable bytes : Type.
Variables read_csv read_excel : bytes -> DataFrame.

Lemma first_named_exists (needle : string) (file_list : list string) :
  (exists f, first_named needle file_list = Some f) <->
  exists f, In f file_list /\ named needle f.
Proof.
  split.
  - intros [f H]. apply first_named_Some in H.
    destruct H as [before [after [-> [Hf _]]]]. exists f.
    split; [apply in_elt | exact Hf].
  - intros [f [Hin Hf]].
    destruct (first_named needle file_list) as [g|] eqn:E; [now exists g|].
    exfalso. exact (proj1 (first_named_None _ _) E f Hin Hf).
Qed.


End IdentifyFacts.

(** X2.  The two files are identified, and no error is shown, exactly when
    some member name contains "eu" and some member name contains "ogrds",
    letter case aside; otherwise the error is shown and no table is
    returned. *)
Theorem extract_zip_and_identify_found
        (bytes : Type) (read_csv read_excel : bytes -> DataFrame)
        (file_list : list string) (content : string -> bytes) :
  (fst (extract_zip_and_identify bytes read_csv read_excel file_list content)
   = [] <->
   (exists f, In f file_list /\ named "eu" f) /\
   (exists f, In f file_list /\ named "ogrds" f)) /\
  (fst (extract_zip_and_identify bytes read_csv read_excel file_list content)
   <> [] ->
   extract_zip_and_identify bytes read_csv read_excel file_list content
   = ([StError "Could not identify both EU and OGRDS files in the zip."],
      (None, None))).
Proof.
  unfold extract_zip_and_identify.
  rewrite <- !first_named_exists.
  destruct (first_named "eu" file_list) as [e|];
    destruct (first_named "ogrds" file_list) as [o|]; simpl; split;
    try (split; [intros _; split; eexists; reflexivity | reflexivity]);
    try (split; [discriminate | intros [[f Hf] [g Hg]]; discriminate]);
    try congruence; reflexivity.
Qed.

(** X3.  Each of the two files is the first member, in archive order, whose
    name contains the word, whatever its extension: it is the one handed to
    the reader, also when a later member with the same word could be read
    and it cannot. *)
Theorem extract_zip_and_identify_first
        (bytes : Type) (read_csv read_excel : bytes -> DataFrame)
        (file_list : list string) (content : string -> bytes)
        (before after before' after' : list string) (e o : string) :
  file_list = before ++ e :: after ->
  named "eu" e -> (forall g, In g before -> ~ named "eu" g) ->
  file_list = before' ++ o :: after' ->
  named "ogrds" o -> (forall g, In g before' -> ~ named "ogrds" g) ->
  extract_zip_and_identify bytes read_csv read_excel file_list content
  = ([], (read_uploaded_file bytes read_csv read_excel (content e) e,
          read_uploaded_file bytes read_csv read_excel (content o) o)).
Proof.
  intros H1 H2 H3 H4 H5 H6. unfold extract_zip_and_identify.
  rewrite (proj2 (first_named_Some "eu" file_list e)) by eauto.
  rewrite (proj2 (first_named_Some "ogrds" file_list o)) by eauto.
  reflexivity.
Qed.

Lemma extract_zip_and_identify_first_witness :
  extract_zip_and_identify unit (fun _ => []) (fun _ => [("Sheet1", [])])
    ["readme.txt"; "EU_notes.txt"; "eu_data.csv"; "ogrds_data.xlsx"]
    (fun _ => tt)
  = ([], (None, Some [("Sheet1", [])])).
Proof.
  assert (N : forall needle f, Py.contains needle (Py.lower f) = true ->
                               named needle f)
    by (intros; now apply contains_spec).
  assert (M : forall needle f, Py.contains needle (Py.lower f) = false ->
                               ~ named needle f).
  { intros needle f H Hn. apply contains_spec in Hn. congruence. }
  apply (extract_zip_and_identify_first unit (fun _ => [])
           (fun _ => [("Sheet1", [])]) _ (fun _ => tt)
           ["readme.txt"] ["eu_data.csv"; "ogrds_data.xlsx"]
           ["readme.txt"; "EU_notes.txt"; "eu_data.csv"] []
           "EU_notes.txt" "ogrds_data.xlsx").
  - reflexivity.
  - now apply N.
  - intros g [<-|[]]. now apply M.
  - reflexivity.
  - now apply N.
  - intros g [<-|[<-|[<-|[]]]]; now apply M.
Defined.



Lemma extract_zip_and_identify_found_witness :
  extract_zip_and_identify unit (fun _ => []) (fun _ => [("Sheet1", [])])
    ["eu_data.csv"; "notes.txt"] (fun _ => tt)
  = ([StError "Could not identify both EU and OGRDS files in the zip."],
     (None, None)).
Proof.
  apply (proj2 (extract_zip_and_identify_found unit (fun _ => [])
                  (fun _ => [("Sheet1", [])])
                  ["eu_data.csv"; "notes.txt"] (fun _ => tt))).
  discriminate.
Defined.

(** * More on frames *)

Section RectFacts.

Lemma has_column_app (label : string) (df1 df2 : DataFrame) :
  Pd.has_column label (df1 ++ df2)
  = Pd.has_column label df1 || Pd.has_column label df2.
Proof.
  unfold Pd.has_column, Pd.columns. now rewrite map_app, existsb_app.
Qed.


Lemma rect_getitem (n : nat) (df : DataFrame) (label : string) (col : Series) :
  rect n df -> Pd.getitem df label = Ok col -> List.length col = n.
Proof.
  unfold rect. induction 1 as [|[l c] df Hl Hdf IH]; simpl; [discriminate|].
  destruct (String.eqb l label); [now intros [= <-] | exact IH].
Qed.

Lemma rect_app (n : nat) (df1 df2 : DataFrame) :
  rect n df1 -> rect n df2 -> rect n (df1 ++ df2).
Proof. unfold rect. intros. now apply Forall_app. Qed.

Lemma has_column_getitem (df : DataFrame) (label : string) :
  Pd.has_column label df = false ->
  forall col, Pd.getitem df label <> Ok col.
Proof. intros H col E. rewrite (getitem_absent _ _ H) in E. discriminate. Qed.

End RectFacts.

(** * Key Builder: the join key *)

Section KeyFacts.

Lemma add_join_key (sg clean : cell) :
  Ser.add (Ser.add sg (Some " "%string)) clean = join_key sg clean.
Proof.
  destruct sg as [s|], clean as [c|]; simpl; try reflexivity.
  f_equal. now rewrite append_assoc.
Qed.

Lemma add_series_join_key (sg clean : Series) :
  Ser.add_series (Ser.add_str sg " ") clean
  = map (fun p => join_key (fst p) (snd p)) (combine sg clean).
Proof.
  unfold Ser.add_series, Ser.add_str. revert clean.
  induction sg as [|s sg IH]; intros [|c clean]; simpl; try reflexivity.
  now rewrite IH, add_join_key.
Qed.

Lemma clean_and_merge_supergroup_steps (m : na_cast) (df : DataFrame)
      (brand : Series) :
  Pd.getitem df "BRAND1_VALIDATED" = Ok brand ->
  let clean := map (fun c => Ser.str_replace_trailing
                               (Ser.astype_str m (Ser.str_extract c))) brand in
  let df1 := Pd.setitem df "BRAND_1_CLEAN" clean in
  clean_and_merge_supergroup m df
  = if Pd.has_column "SUPER_GROUP" df then
      sg <- Pd.getitem df "SUPER_GROUP" ;;
      Ok (Pd.setitem df1 "SG_B1" (Ser.add_series (Ser.add_str sg " ") clean))
    else if Pd.has_column "SUPER_GROUP_DSCR" df then
      sg <- Pd.getitem df "SUPER_GROUP_DSCR" ;;
      Ok (Pd.setitem df1 "SG_B1" (Ser.add_series (Ser.add_str sg " ") clean))
    else Ok df1.
Proof.
  intros Hb clean df1. unfold clean_and_merge_supergroup. rewrite Hb.
  cbn [bind]. rewrite getitem_setitem_same. cbn [bind]. rewrite map_map.
  assert (E : Pd.setitem
                (Pd.setitem df "BRAND_1_CLEAN"
                   (map (fun c => Ser.astype_str m (Ser.str_extract c)) brand))
                "BRAND_1_CLEAN" clean = df1).
  { unfold df1. clear. generalize (map (fun c => Ser.astype_str m
                                                   (Ser.str_extract c)) brand).
    intros c0. induction df as [|[l c] df IH]; simpl.
    - reflexivity.
    - destruct (String.eqb l "BRAND_1_CLEAN") eqn:E; simpl; rewrite E;
        [reflexivity | now rewrite IH]. }
  fold clean. rewrite E.
  assert (G : Pd.getitem df1 "BRAND_1_CLEAN" = Ok clean)
    by apply getitem_setitem_same.
  assert (G' : forall l, l <> "BRAND_1_CLEAN" ->
                         Pd.getitem df1 l = Pd.getitem df l)
    by (intros l Hl; now apply getitem_setitem_other).
  assert (C : forall l, l <> "BRAND_1_CLEAN" ->
                        Pd.has_column l df1 = Pd.has_column l df).
  { intros l Hl. unfold df1. rewrite has_column_setitem.
    apply String.eqb_neq in Hl. now rewrite Hl. }
  rewrite (C "SUPER_GROUP"), (C "SUPER_GROUP_DSCR") by discriminate.
  rewrite (G' "SUPER_GROUP"), (G' "SUPER_GROUP_DSCR") by discriminate.
  destruct (Pd.has_column "SUPER_GROUP" df).
  - destruct (Pd.getitem df "SUPER_GROUP"); cbn [bind]; [|reflexivity].
    now rewrite G.
  - destruct (Pd.has_column "SUPER_GROUP_DSCR" df); [|reflexivity].
    destruct (Pd.getitem df "SUPER_GROUP_DSCR"); cbn [bind]; [|reflexivity].
    now rewrite G.
Qed.

End KeyFacts.

(** X6.  On a table with distinct labels whose brand-name column and
    super-group column hold a text value and have one cell per row, the Key
    Builder takes the super-group value from SUPER_GROUP when the table has
    that column, from SUPER_GROUP_DSCR only when it has not.  The join key
    of a row is the super-group value, one blank and the cleaned brand name,
    and is missing when one of the two is missing.  Every column other than
    the two it writes is left as it was. *)
Theorem clean_and_merge_supergroup_join_key
        (m : na_cast) (df : DataFrame) (brand sg : Series) (label : string) :
  distinct_labels df ->
  Pd.getitem df "BRAND1_VALIDATED" = Ok brand ->
  text_column brand ->
  label = "SUPER_GROUP" \/
  (label = "SUPER_GROUP_DSCR" /\ Pd.has_column "SUPER_GROUP" df = false) ->
  Pd.getitem df label = Ok sg ->
  text_column sg ->
  List.length sg = List.length brand ->
  exists out clean,
    clean_and_merge_supergroup m df = Ok out /\
    Pd.getitem out "BRAND_1_CLEAN" = Ok clean /\
    List.length clean = List.length brand /\
    Pd.getitem out "SG_B1"
    = Ok (map (fun p => join_key (fst p) (snd p)) (combine sg clean)) /\
    forall other, other <> "BRAND_1_CLEAN" -> other <> "SG_B1" ->
                  Pd.getitem out other = Pd.getitem df other.
Proof.
  intros _ Hb _ Hl Hsg _ _.
  rewrite (clean_and_merge_supergroup_steps m df brand Hb).
  cbv zeta.
  assert (Hgoal : forall sg0,
             sg0 = sg ->
             exists out clean,
               Ok (Pd.setitem
                     (Pd.setitem df "BRAND_1_CLEAN"
                        (map (fun c => Ser.str_replace_trailing
                                         (Ser.astype_str m (Ser.str_extract c)))
                             brand))
                     "SG_B1"
                     (Ser.add_series (Ser.add_str sg0 " ")
                        (map (fun c => Ser.str_replace_trailing
                                         (Ser.astype_str m (Ser.str_extract c)))
                             brand))) = Ok out /\
               Pd.getitem out "BRAND_1_CLEAN" = Ok clean /\
               List.length clean = List.length brand /\
               Pd.getitem out "SG_B1"
               = Ok (map (fun p => join_key (fst p) (snd p)) (combine sg clean))
               /\
               forall other, other <> "BRAND_1_CLEAN" -> other <> "SG_B1" ->
                             Pd.getitem out other = Pd.getitem df other).
  { intros sg0 ->. eexists. eexists. split; [reflexivity|]. split; [|split;[|split]].
    - rewrite getitem_setitem_other by discriminate.
      apply getitem_setitem_same.
    - now rewrite length_map.
    - rewrite getitem_setitem_same. now rewrite add_series_join_key.
    - intros other H1 H2. now rewrite !getitem_setitem_other. }
  destruct Hl as [->|[-> Hno]].
  - rewrite (getitem_Ok_has_column _ _ _ Hsg), Hsg. now apply Hgoal.
  - rewrite Hno, (getitem_Ok_has_column _ _ _ Hsg), Hsg. now apply Hgoal.
Qed.

Lemma clean_and_merge_supergroup_join_key_witness :
  exists out,
    clean_and_merge_supergroup NaAsText
      [("SUPER_GROUP_DSCR", [Some "Europe"; Some "Europe"]);
       ("SUPER_GROUP", [Some "EMEA"; None]);
       ("BRAND1_VALIDATED", [Some "Acme (Group)"; Some "Acme"])] = Ok out /\
    Pd.getitem out "SG_B1" = Ok [Some "EMEA Acme"; None].
Proof.
  assert (D : distinct_labels
                [("SUPER_GROUP_DSCR", [Some "Europe"; Some "Europe"]);
                 ("SUPER_GROUP", [Some "EMEA"; None]);
                 ("BRAND1_VALIDATED", [Some "Acme (Group)"; Some "Acme"])]).
  { unfold distinct_labels. simpl.
    constructor; [intros [H|[H|[]]]; discriminate H|].
    constructor; [intros [H|[]]; discriminate H|].
    constructor; [intros [] | constructor]. }
  assert (T : forall s r, text_column (Some s :: r)).
  { intros s r. apply Exists_cons_hd. discriminate. }
  destruct (clean_and_merge_supergroup_join_key NaAsText
              [("SUPER_GROUP_DSCR", [Some "Europe"; Some "Europe"]);
               ("SUPER_GROUP", [Some "EMEA"; None]);
               ("BRAND1_VALIDATED", [Some "Acme (Group)"; Some "Acme"])]
              [Some "Acme (Group)"; Some "Acme"] [Some "EMEA"; None]
              "SUPER_GROUP" D eq_refl (T _ _) (or_introl eq_refl) eq_refl
              (T _ _) eq_refl)
    as [out [clean [H1 _]]].
  exists out. split; [exact H1|].
  cbv in H1. injection H1 as <-. reflexivity.
Defined.

(** X7.  Without a brand-name column the Key Builder raises.  With one
    that holds a text value, on a table with distinct labels and with
    neither SUPER_GROUP nor SUPER_GROUP_DSCR, it returns without writing a
    join key: a table that had no SG_B1 column still has none, and the
    Ownership Suggester and the Suggestion Merger raise on it. *)
Theorem clean_and_merge_supergroup_without_super_group
        (m : na_cast) (df : DataFrame) :
  (Pd.has_column "BRAND1_VALIDATED" df = false ->
   clean_and_merge_supergroup m df = Raise (KeyError "BRAND1_VALIDATED")) /\
  (forall brand,
      distinct_labels df ->
      Pd.getitem df "BRAND1_VALIDATED" = Ok brand ->
      text_column brand ->
      Pd.has_column "SUPER_GROUP" df = false ->
      Pd.has_column "SUPER_GROUP_DSCR" df = false ->
      Pd.has_column "SG_B1" df = false ->
      exists out,
        clean_and_merge_supergroup m df = Ok out /\
        Pd.has_column "SG_B1" out = false /\
        generate_boi_suggest out = Raise (KeyError "SG_B1") /\
        forall sugg, merge_boi_suggest out sugg = Raise (KeyError "SG_B1")).
Proof.
  split.
  - intros H. unfold clean_and_merge_supergroup.
    now rewrite (getitem_absent _ _ H).
  - intros brand _ Hb _ H1 H2 H3.
    rewrite (clean_and_merge_supergroup_steps m df brand Hb). cbv zeta.
    rewrite H1, H2. eexists. split; [reflexivity|].
    assert (Hk : Pd.has_column "SG_B1"
                   (Pd.setitem df "BRAND_1_CLEAN"
                      (map (fun c => Ser.str_replace_trailing
                                       (Ser.astype_str m (Ser.str_extract c)))
                           brand)) = false).
    { rewrite has_column_setitem, H3. reflexivity. }
    split; [exact Hk|]. split.
    + unfold generate_boi_suggest. now rewrite (getitem_absent _ _ Hk).
    + intros sugg. unfold merge_boi_suggest, Merge.left_merge.
      now rewrite (getitem_absent _ _ Hk).
Qed.

Lemma clean_and_merge_supergroup_without_super_group_witness :
  exists out,
    clean_and_merge_supergroup NaAsText
      [("REGION", [Some "EMEA"]); ("BRAND1_VALIDATED", [Some "Acme"])]
    = Ok out /\
    generate_boi_suggest out = Raise (KeyError "SG_B1").
Proof.
  assert (D : distinct_labels
                [("REGION", [Some "EMEA"]);
                 ("BRAND1_VALIDATED", [Some "Acme"])]).
  { unfold distinct_labels. simpl.
    constructor; [intros [H|[]]; discriminate H|].
    constructor; [intros [] | constructor]. }
  assert (T : text_column [Some "Acme"]).
  { apply Exists_cons_hd. discriminate. }
  destruct (proj2 (clean_and_merge_supergroup_without_super_group NaAsText
                     [("REGION", [Some "EMEA"]);
                      ("BRAND1_VALIDATED", [Some "Acme"])])
                  [Some "Acme"] D eq_refl T eq_refl eq_refl eq_refl)
    as [out [H1 [_ [H2 _]]]].
  exists out. split; assumption.
Defined.

(** * Ownership Suggester: errors and row order *)

Section GroupFacts.

Lemma group_eq (a b : Group) :
  g_key a = g_key b -> g_owner a = g_owner b -> g_count a = g_count b -> a = b.
Proof. destruct a, b; simpl; congruence. Qed.

Lemma pair_lt_asym (p q : string * string) : pair_lt p q -> ~ pair_lt q p.
Proof.
  intros H1 H2. exact (pair_lt_irrefl p (pair_lt_trans _ _ _ H1 H2)).
Qed.

(** The head of a sorted list of groups carries the least labels. *)
Lemma sorted_head_least (a g : Group) (rest : list Group) :
  StronglySorted pair_lt (map labels (a :: rest)) ->
  In g (a :: rest) ->
  labels a = labels g \/ pair_lt (labels a) (labels g).
Proof.
  intros Hs [->|Hin]; [now left|]. right.
  simpl in Hs. apply StronglySorted_inv in Hs. destruct Hs as [_ Hall].
  rewrite Forall_forall in Hall. apply Hall. now apply in_map.
Qed.

(** Sorted groups with positive counts are determined by their totals. *)
Lemma groups_determined (A B : list Group) :
  StronglySorted pair_lt (map labels A) ->
  StronglySorted pair_lt (map labels B) ->
  Forall (fun g => 0 < g_count g) A ->
  Forall (fun g => 0 < g_count g) B ->
  (forall k o, total A k o = total B k o) ->
  A = B.
Proof.
  revert B. induction A as [|a A IH]; intros [|b B] SA SB PA PB Ht.
  - reflexivity.
  - exfalso. specialize (Ht (g_key b) (g_owner b)).
    rewrite (total_of_member _ b SB (or_introl eq_refl)) in Ht.
    inversion PB; subst. simpl in Ht. lia.
  - exfalso. specialize (Ht (g_key a) (g_owner a)).
    rewrite (total_of_member _ a SA (or_introl eq_refl)) in Ht.
    inversion PA; subst. simpl in Ht. lia.
  - assert (Ha := total_of_member _ a SA (or_introl eq_refl)).
    assert (Hb := total_of_member _ b SB (or_introl eq_refl)).
    inversion PA as [|? ? Pa PA']; inversion PB as [|? ? Pb PB']; subst.
    assert (Hba : exists g, In g (b :: B) /\ labels g = labels a).
    { assert (H : 0 < total (b :: B) (g_key a) (g_owner a))
        by (rewrite <- Ht, Ha; exact Pa).
      destruct (total_present _ _ _ H) as [g [Hg [E1 E2]]].
      exists g. split; [exact Hg | unfold labels; congruence]. }
    assert (Hab : exists g, In g (a :: A) /\ labels g = labels b).
    { assert (H : 0 < total (a :: A) (g_key b) (g_owner b))
        by (rewrite Ht, Hb; exact Pb).
      destruct (total_present _ _ _ H) as [g [Hg [E1 E2]]].
      exists g. split; [exact Hg | unfold labels; congruence]. }
    destruct Hba as [g [Hg Eg]]. destruct Hab as [h [Hh Eh]].
    pose proof (sorted_head_least b g B SB Hg) as Lb.
    pose proof (sorted_head_least a h A SA Hh) as La.
    rewrite Eg in Lb. rewrite Eh in La.
    assert (El : labels a = labels b).
    { destruct La as [La|La]; [exact La|].
      destruct Lb as [Lb|Lb]; [now symmetry|].
      exfalso. exact (pair_lt_asym _ _ La Lb). }
    injection El as Ek Eo.
    assert (Ec : g_count a = g_count b).
    { rewrite <- Ha, <- Hb, Ht. now rewrite Ek, Eo. }
    assert (Eab : a = b) by now apply group_eq.
    subst b. f_equal. simpl in SA, SB.
    apply StronglySorted_inv in SA, SB.
    apply IH; try tauto.
    intros k o. specialize (Ht k o). simpl in Ht. lia.
Qed.

Lemma votes_permutation (keys owners keys' owners' : Series) (k o : string) :
  Permutation (combine keys owners) (combine keys' owners') ->
  votes keys owners k o = votes keys' owners' k o.
Proof.
  unfold votes. induction 1 as [|x l l' _ IH|x y l|l l' l'' _ IH1 _ IH2];
    simpl; try reflexivity.
  - destruct (is_vote k o x); simpl; now rewrite IH.
  - destruct (is_vote k o x), (is_vote k o y); reflexivity.
  - now rewrite IH1.
Qed.

End GroupFacts.

(** X8.  The Ownership Suggester raises a [KeyError] for the join-key column
    when it is absent, for the owner column when only that one is absent,
    and returns otherwise; what it returns has the two columns SG_B1 and
    BOI_SUGGEST, of one length and without missing values. *)
Theorem generate_boi_suggest_errors (ogrds_df : DataFrame) :
  (Pd.has_column "SG_B1" ogrds_df = false ->
   generate_boi_suggest ogrds_df = Raise (KeyError "SG_B1")) /\
  (Pd.has_column "SG_B1" ogrds_df = true ->
   Pd.has_column "BRAND_OWNER_INTERNATIONAL" ogrds_df = false ->
   generate_boi_suggest ogrds_df
   = Raise (KeyError "BRAND_OWNER_INTERNATIONAL")) /\
  (Pd.has_column "SG_B1" ogrds_df = true ->
   Pd.has_column "BRAND_OWNER_INTERNATIONAL" ogrds_df = true ->
   exists sk so,
     generate_boi_suggest ogrds_df
     = Ok [("SG_B1", sk); ("BOI_SUGGEST", so)] /\
     List.length sk = List.length so /\
     ~ In None sk /\ ~ In None so).
Proof.
  split; [|split].
  - intros H. unfold generate_boi_suggest. now rewrite (getitem_absent _ _ H).
  - intros H1 H2. unfold generate_boi_suggest.
    destruct (getitem_present _ _ H1) as [keys ->].
    now rewrite (getitem_absent _ _ H2).
  - intros H1 H2. destruct (getitem_present _ _ H1) as [keys Hk].
    destruct (getitem_present _ _ H2) as [owners Ho].
    rewrite (generate_boi_suggest_columns keys owners _ Hk Ho).
    eexists. eexists. split; [reflexivity|].
    split; [now rewrite !length_map|].
    split; intros H; apply in_map_iff in H; destruct H as [g [E _]];
      discriminate.
Qed.

Lemma generate_boi_suggest_errors_witness :
  generate_boi_suggest [("SG_B1", [Some "K1"]); ("OWNER", [Some "X"])]
  = Raise (KeyError "BRAND_OWNER_INTERNATIONAL").
Proof.
  exact (proj1 (proj2 (generate_boi_suggest_errors
                         [("SG_B1", [Some "K1"]); ("OWNER", [Some "X"])]))
               eq_refl eq_refl).
Defined.

(** X9.  The suggestion table depends on the rows of the reference table,
    not on their order: two reference tables whose (join key, owner) rows
    are rearrangements of each other give the same suggestion table. *)
Theorem generate_boi_suggest_row_order
        (df df' : DataFrame) (keys owners keys' owners' : Series) :
  Pd.getitem df "SG_B1" = Ok keys ->
  Pd.getitem df "BRAND_OWNER_INTERNATIONAL" = Ok owners ->
  Pd.getitem df' "SG_B1" = Ok keys' ->
  Pd.getitem df' "BRAND_OWNER_INTERNATIONAL" = Ok owners' ->
  Permutation (combine keys owners) (combine keys' owners') ->
  generate_boi_suggest df = generate_boi_suggest df'.
Proof.
  intros H1 H2 H3 H4 Hp.
  rewrite (generate_boi_suggest_columns keys owners _ H1 H2).
  rewrite (generate_boi_suggest_columns keys' owners' _ H3 H4).
  unfold chosen_rows.
  rewrite (groups_determined (Suggest.groupby_size keys owners)
                             (Suggest.groupby_size keys' owners')).
  - reflexivity.
  - apply groupby_size_sorted.
  - apply groupby_size_sorted.
  - apply groupby_size_positive.
  - apply groupby_size_positive.
  - intros k o. rewrite !total_groupby_size. now apply votes_permutation.
Qed.

Lemma generate_boi_suggest_row_order_witness :
  generate_boi_suggest
    [("SG_B1", [Some "K1"; Some "K1"; Some "K2"]);
     ("BRAND_OWNER_INTERNATIONAL", [Some "Y"; Some "X"; Some "Z"])]
  = generate_boi_suggest
      [("BRAND_OWNER_INTERNATIONAL", [Some "Z"; Some "X"; Some "Y"]);
       ("SG_B1", [Some "K2"; Some "K1"; Some "K1"])].
Proof.
  apply (generate_boi_suggest_row_order
           [("SG_B1", [Some "K1"; Some "K1"; Some "K2"]);
            ("BRAND_OWNER_INTERNATIONAL", [Some "Y"; Some "X"; Some "Z"])]
           [("BRAND_OWNER_INTERNATIONAL", [Some "Z"; Some "X"; Some "Y"]);
            ("SG_B1", [Some "K2"; Some "K1"; Some "K1"])]
           [Some "K1"; Some "K1"; Some "K2"] [Some "Y"; Some "X"; Some "Z"]
           [Some "K2"; Some "K1"; Some "K1"] [Some "Z"; Some "X"; Some "Y"]
           eq_refl eq_refl eq_refl eq_refl).
  simpl. eapply perm_trans; [apply perm_swap|].
  eapply perm_trans; [apply perm_skip, perm_swap|]. apply perm_swap.
Defined.

(** * Suggestion Merger: matched rows and kept columns *)

Section MergeMore.



End MergeMore.



(** * Validation stage: more on the spacing fix *)

Section BlankFacts.
Local Open Scope string_scope.

Lemma remove_blanks_append (a b : string) :
  remove_blanks (a ++ b) = remove_blanks a ++ remove_blanks b.
Proof.
  induction a as [|c a IH]; simpl; [reflexivity|].
  destruct (Ascii.eqb c " "); simpl; now rewrite IH.
Qed.

Lemma sub_paren_blanks (s : string) :
  remove_blanks (Re.sub_paren s) = remove_blanks s /\
  forall c, remove_blanks (Re.sub_paren (String c s))
            = remove_blanks (String c s).
Proof.
  induction s as [|d s [IH1 IH2]].
  - split; [reflexivity | intros c; reflexivity].
  - split; [apply IH2|]. intros c. rewrite sub_paren_step.
    destruct (negb (Py.isspace c) && Ascii.eqb d "(") eqn:E.
    + apply andb_prop in E. destruct E as [_ E]. apply Ascii.eqb_eq in E.
      subst d. cbn [remove_blanks].
      change (Ascii.eqb " " " ") with true. change (Ascii.eqb "(" " ") with false.
      cbv iota. now rewrite IH1.
    + cbn [remove_blanks]. rewrite (IH2 d). reflexivity.
Qed.

Lemma sub_paren_length (s : string) :
  String.length s <= String.length (Re.sub_paren s) /\
  forall c, String.length (String c s)
            <= String.length (Re.sub_paren (String c s)).
Proof.
  induction s as [|d s [IH1 IH2]].
  - split; [simpl; lia | intros c; simpl; lia].
  - split; [apply IH2|]. intros c. rewrite sub_paren_step.
    destruct (negb (Py.isspace c) && Ascii.eqb d "("); cbn [String.length].
    + lia.
    + specialize (IH2 d). cbn [String.length] in IH2. lia.
Qed.

Lemma join_blanks (sep : ascii) (parts parts' : list string) :
  Forall2 (fun t t' => remove_blanks t' = remove_blanks t) parts parts' ->
  remove_blanks (Py.join sep parts') = remove_blanks (Py.join sep parts).
Proof.
  induction 1 as [|t t' ts ts' Ht Hts IH]; [reflexivity|].
  destruct Hts as [|u u' us us' Hu Hus]; [exact Ht|].
  change (Py.join sep (t' :: u' :: us'))
    with (t' ++ String sep (Py.join sep (u' :: us'))).
  change (Py.join sep (t :: u :: us))
    with (t ++ String sep (Py.join sep (u :: us))).
  rewrite !remove_blanks_append. cbn [remove_blanks].
  rewrite Ht, IH. reflexivity.
Qed.

Lemma length_append (a b : string) :
  String.length (a ++ b) = String.length a + String.length b.
Proof. induction a as [|c a IH]; simpl; [reflexivity | now rewrite IH]. Qed.

Lemma join_length (sep : ascii) (parts parts' : list string) :
  Forall2 (fun t t' => String.length t <= String.length t') parts parts' ->
  String.length (Py.join sep parts) <= String.length (Py.join sep parts').
Proof.
  induction 1 as [|t t' ts ts' Ht Hts IH]; [simpl; lia|].
  destruct Hts as [|u u' us us' Hu Hus]; [exact Ht|].
  change (Py.join sep (t' :: u' :: us'))
    with (t' ++ String sep (Py.join sep (u' :: us'))).
  change (Py.join sep (t :: u :: us))
    with (t ++ String sep (Py.join sep (u :: us))).
  rewrite !length_append. cbn [String.length]. lia.
Qed.

End BlankFacts.

(** X11.  On any text the spacing fix only puts blanks in: taking the
    blanks out of its result gives the text without its blanks, and the
    result is at least as long as the text. *)
Theorem fix_spacing_only_inserts_blanks (val : string) :
  exists fixed,
    fix_spacing (Some val) = Some fixed /\
    remove_blanks fixed = remove_blanks val /\
    String.length val <= String.length fixed.
Proof.
  unfold fix_spacing. eexists. split; [reflexivity|]. split.
  - rewrite <- (join_split ";" val) at 2. apply join_blanks.
    induction (Py.split ";" val) as [|t ts IH]; simpl; constructor;
      [apply sub_paren_blanks | exact IH].
  - rewrite <- (join_split ";" val) at 1. apply join_length.
    induction (Py.split ";" val) as [|t ts IH]; simpl; constructor;
      [apply sub_paren_length | exact IH].
Qed.

(** X12.  The spacing fix raises a [KeyError] when the table has no
    BRAND_VALIDATED column.  Otherwise it writes the fixed values under
    BRAND_VALIDATED_FIXED, as many as there are rows and missing exactly
    where the value is missing, and leaves every other column, the
    original one included, as it was. *)
Theorem apply_spacing_fix_column (df : DataFrame) :
  (Pd.has_column "BRAND_VALIDATED" df = false ->
   apply_spacing_fix df = Raise (KeyError "BRAND_VALIDATED")) /\
  (forall col,
      Pd.getitem df "BRAND_VALIDATED" = Ok col ->
      exists out fixed,
        apply_spacing_fix df = Ok out /\
        Pd.getitem out "BRAND_VALIDATED_FIXED" = Ok fixed /\
        Forall2 (fun v f => fix_spacing v = f /\ isna f = isna v) col fixed /\
        forall other, other <> "BRAND_VALIDATED_FIXED" ->
                      Pd.getitem out other = Pd.getitem df other).
Proof.
  split.
  - intros H. unfold apply_spacing_fix. now rewrite (getitem_absent _ _ H).
  - intros col H. unfold apply_spacing_fix. rewrite H. cbn [bind].
    eexists. eexists. split; [reflexivity|].
    split; [apply getitem_setitem_same|]. split.
    + clear H. induction col as [|v col IH]; simpl; [constructor|].
      constructor; [|exact IH]. split; [reflexivity | now destruct v].
    + intros other Ho. now apply getitem_setitem_other.
Qed.

Lemma apply_spacing_fix_column_witness :
  exists out,
    apply_spacing_fix [("BRAND_VALIDATED", [Some "O1;Brand(Group);B"; None])]
    = Ok out /\
    Pd.getitem out "BRAND_VALIDATED" = Ok [Some "O1;Brand(Group);B"; None] /\
    Pd.getitem out "BRAND_VALIDATED_FIXED"
    = Ok [Some "O1;Brand (Group);B"; None].
Proof.
  destruct (proj2 (apply_spacing_fix_column
                     [("BRAND_VALIDATED", [Some "O1;Brand(Group);B"; None])])
                  [Some "O1;Brand(Group);B"; None] eq_refl)
    as [out [fixed [H1 _]]].
  exists out. split; [exact H1|].
  cbv in H1. injection H1 as <-. split; reflexivity.
Defined.

(** * Validation stage: the GBE status column *)

Section StatusFacts.

Lemma row_get_row_at (df : DataFrame) (i : nat) (label : string) :
  Pd.row_get (Pd.row_at df i) label
  = match Pd.getitem df label with
    | Ok col => nth i col None
    | Raise _ => None
    end.
Proof.
  unfold Pd.row_at. induction df as [|[l c] df IH]; simpl; [reflexivity|].
  destruct (String.eqb l label); [reflexivity | exact IH].
Qed.

Lemma check_gbe_match_fields (row : Row) :
  Some (check_gbe_match row)
  = gbe_status (Pd.row_get row "BRAND1_VALIDATED")
               (Pd.row_get row "GBE_VALIDATED").
Proof.
  unfold gbe_status, check_gbe_match. simpl.
  now destruct (Pd.row_get row "BRAND1_VALIDATED"),
               (Pd.row_get row "GBE_VALIDATED").
Qed.

Lemma map_seq_combine (f : cell -> cell -> cell) (a b : Series) :
  List.length a = List.length b ->
  map (fun i => f (nth i a None) (nth i b None)) (seq 0 (List.length a))
  = map (fun p => f (fst p) (snd p)) (combine a b).
Proof.
  revert b. induction a as [|x a IH]; intros [|y b]; simpl;
    try reflexivity; try discriminate.
  intros [= Hlen]. f_equal. rewrite <- seq_shift, map_map. now apply IH.
Qed.

Lemma gbe_status_column (df : DataFrame) :
  Pd.getitem (apply_gbe_validation df) "GBE_STATUS"
  = Ok (map (fun i =>
               gbe_status
                 match Pd.getitem df "BRAND1_VALIDATED" with
                 | Ok col => nth i col None
                 | Raise _ => None
                 end
                 match Pd.getitem df "GBE_VALIDATED" with
                 | Ok col => nth i col None
                 | Raise _ => None
                 end) (seq 0 (Pd.nrows df))).
Proof.
  unfold apply_gbe_validation. rewrite getitem_setitem_same. f_equal.
  unfold Pd.iterrows. rewrite map_map. apply map_ext. intros i.
  now rewrite check_gbe_match_fields, !row_get_row_at.
Qed.

Lemma rect_nrows (n : nat) (df : DataFrame) (label : string) (col : Series) :
  rect n df -> Pd.getitem df label = Ok col -> Pd.nrows df = n.
Proof.
  unfold rect. intros Hr Hg. destruct df as [|[l c] df]; [discriminate|].
  inversion Hr; subst. reflexivity.
Qed.

End StatusFacts.

(** X13.  On a table with distinct labels, the GBE status of a row depends
    on the brand name and the group entity of that row only: when the
    columns of the table have one length, the status column is, row by row,
    the check applied to these two fields.  A table lacking one of the two
    columns gets "Missing Data" in every row.  Every other column is left
    as it was. *)
Theorem apply_gbe_validation_rows (n : nat) (df : DataFrame) :
  distinct_labels df ->
  (forall brand gbe,
      rect n df ->
      Pd.getitem df "BRAND1_VALIDATED" = Ok brand ->
      Pd.getitem df "GBE_VALIDATED" = Ok gbe ->
      Pd.getitem (apply_gbe_validation df) "GBE_STATUS"
      = Ok (map (fun p => gbe_status (fst p) (snd p)) (combine brand gbe))) /\
  (Pd.has_column "BRAND1_VALIDATED" df = false \/
   Pd.has_column "GBE_VALIDATED" df = false ->
   Pd.getitem (apply_gbe_validation df) "GBE_STATUS"
   = Ok (repeat (Some "Missing Data"%string) (Pd.nrows df))) /\
  (forall other, other <> "GBE_STATUS" ->
                 Pd.getitem (apply_gbe_validation df) other
                 = Pd.getitem df other).
Proof.
  intros _. split; [|split].
  - intros brand gbe Hr Hb Hg. rewrite gbe_status_column, Hb, Hg.
    rewrite (rect_nrows n df _ _ Hr Hb).
    pose proof (rect_getitem _ _ _ _ Hr Hb) as Lb.
    pose proof (rect_getitem _ _ _ _ Hr Hg) as Lg.
    rewrite <- Lb. f_equal. apply map_seq_combine. congruence.
  - intros H. rewrite gbe_status_column. f_equal.
    assert (E : forall i,
               gbe_status
                 match Pd.getitem df "BRAND1_VALIDATED" with
                 | Ok col => nth i col None
                 | Raise _ => None
                 end
                 match Pd.getitem df "GBE_VALIDATED" with
                 | Ok col => nth i col None
                 | Raise _ => None
                 end = Some "Missing Data"%string).
    { intros i. destruct H as [H|H]; rewrite (getitem_absent _ _ H).
      - reflexivity.
      - unfold gbe_status, check_gbe_match. simpl.
        now destruct (Pd.getitem df "BRAND1_VALIDATED") as [c|];
          [destruct (nth i c None)|]. }
    rewrite (map_ext _ _ E). generalize (Pd.nrows df) as k. intros k.
    generalize 0 as start. induction k as [|k IH]; intros start; simpl;
      [reflexivity | now rewrite IH].
  - intros other Ho. unfold apply_gbe_validation.
    now apply getitem_setitem_other.
Qed.

Lemma apply_gbe_validation_rows_witness :
  Pd.getitem
    (apply_gbe_validation
       [("BRAND1_VALIDATED", [Some "Acme (X)"; Some "Acme"; None]);
        ("GBE_VALIDATED", [Some "Acme Europe"; Some "Other"; Some "Acme"])])
    "GBE_STATUS"
  = Ok [Some "Correct GBE"; Some "Incorrect GBE"; Some "Missing Data"].
Proof.
  refine (eq_trans
            (proj1 (apply_gbe_validation_rows 3
                      [("BRAND1_VALIDATED", [Some "Acme (X)"; Some "Acme"; None]);
                       ("GBE_VALIDATED",
                        [Some "Acme Europe"; Some "Other"; Some "Acme"])] _)
                   [Some "Acme (X)"; Some "Acme"; None]
                   [Some "Acme Europe"; Some "Other"; Some "Acme"]
                   _ eq_refl eq_refl) _).
  - unfold distinct_labels. simpl.
    constructor; [intros [H|[]]; discriminate H|].
    constructor; [intros [] | constructor].
  - repeat constructor.
  - reflexivity.
Defined.

(** * Column Splitter: the parts give back the value *)

(** X14.  Whenever the splitter returns on a table with a BRAND_VALIDATED
    column, it has appended the three columns, and for every row whose
    value has three tokens the three parts are present, hold no ';' and,
    joined with ';', give back the value. *)
Theorem split_brand_columns_round_trip
        (df out : DataFrame) (col : Series) :
  Pd.getitem df "BRAND_VALIDATED" = Ok col ->
  split_brand_columns df = Ok out ->
  exists boi b1 gbe,
    out = df ++ [("BOI_VALIDATED", boi); ("BRAND1_VALIDATED", b1);
                 ("GBE_VALIDATED", gbe)] /\
    List.length boi = List.length col /\
    List.length b1 = List.length col /\
    List.length gbe = List.length col /\
    forall i s,
      nth_error col i = Some (Some s) ->
      ntokens (Some s) = 3 ->
      exists a b c,
        nth_error boi i = Some (Some a) /\
        nth_error b1 i = Some (Some b) /\
        nth_error gbe i = Some (Some c) /\
        ~ occurs ";" a /\ ~ occurs ";" b /\ ~ occurs ";" c /\
        s = (a ++ ";" ++ b ++ ";" ++ c)%string.
Proof.
  intros Hcol Hout. rewrite (split_brand_columns_composite _ _ Hcol) in Hout.
  unfold set_columns in Hout. rewrite str_split_expand_width in Hout.
  destruct (Nat.eqb_spec (Ser.split_width col) 3) as [W|W];
    [|simpl in Hout; destruct (Ser.split_width col) as [|[|[|[|w]]]];
      try discriminate; congruence].
  rewrite (str_split_expand_three col W) in Hout.
  rewrite W in Hout. simpl in Hout. injection Hout as <-.
  eexists. eexists. eexists. split; [reflexivity|].
  rewrite !length_map. repeat split.
  intros i s Hi Hn. rewrite !nth_error_map, Hi. simpl.
  pose proof (split_length ";" s) as Hlen.
  pose proof (join_split ";" s) as Hjoin.
  pose proof (split_no_sep ";" s) as Hsep.
  simpl in Hn. rewrite <- Hlen in Hn.
  destruct (Py.split ";" s) as [|a [|b [|c [|d rest]]]]; try discriminate.
  exists a, b, c. simpl in Hjoin.
  inversion Hsep as [|? ? Ha Hsep']; subst.
  inversion Hsep' as [|? ? Hb Hsep'']; subst.
  inversion Hsep'' as [|? ? Hc _]; subst.
  repeat split; try reflexivity; assumption.
Qed.

Lemma split_brand_columns_round_trip_witness :
  exists boi b1 gbe,
    split_brand_columns [("BRAND_VALIDATED", [Some "O1;Acme;Acme Europe"])]
    = Ok ([("BRAND_VALIDATED", [Some "O1;Acme;Acme Europe"])]
            ++ [("BOI_VALIDATED", boi); ("BRAND1_VALIDATED", b1);
                ("GBE_VALIDATED", gbe)]).
Proof.
  destruct (split_brand_columns_round_trip
              [("BRAND_VALIDATED", [Some "O1;Acme;Acme Europe"])]
              _ [Some "O1;Acme;Acme Europe"] eq_refl eq_refl)
    as [boi [b1 [gbe [H _]]]].
  exists boi, b1, gbe. cbv. cbv in H. now rewrite H.
Defined.

(** * The pipeline: when it cannot complete *)

Section NoCompositeFacts.

Lemma has_column_map_rename (target : string) (ren : string -> string)
      (f : Series -> Series) (df : DataFrame) :
  (forall l, In l (Pd.columns df) -> ren l <> target) ->
  Pd.has_column target (map (fun lc => (ren (fst lc), f (snd lc))) df) = false.
Proof.
  intros H. apply has_column_false. intros Hin.
  unfold Pd.columns in Hin. rewrite map_map in Hin. simpl in Hin.
  apply in_map_iff in Hin. destruct Hin as [[l c] [E Hlc]]. simpl in E.
  apply (H l); [|exact E]. unfold Pd.columns.
  change l with (fst (l, c)). now apply in_map.
Qed.

Lemma suffix_x_not_composite (l : string) :
  (l ++ "_x")%string <> "BRAND_VALIDATED".
Proof.
  intros E. apply (f_equal last_char) in E.
  rewrite last_char_append in E by discriminate. discriminate.
Qed.

Lemma split_keeps_no_composite (df out : DataFrame) :
  Pd.has_column "BRAND_VALIDATED" df = false ->
  split_brand_columns df = Ok out ->
  Pd.has_column "BRAND_VALIDATED" out = false.
Proof.
  intros H. unfold split_brand_columns. rewrite H.
  destruct (Pd.has_column "BRAND_1" df); [|discriminate].
  destruct (Pd.getitem df "BRAND_1") as [col|]; [|discriminate].
  cbn [bind]. intros [= <-]. rewrite has_column_setitem, H. reflexivity.
Qed.

Lemma clean_keeps_no_composite (m : na_cast) (df out : DataFrame) :
  Pd.has_column "BRAND_VALIDATED" df = false ->
  clean_and_merge_supergroup m df = Ok out ->
  Pd.has_column "BRAND_VALIDATED" out = false.
Proof.
  intros H Hc.
  destruct (Pd.getitem df "BRAND1_VALIDATED") as [brand|] eqn:Hb;
    [|unfold clean_and_merge_supergroup in Hc; rewrite Hb in Hc;
      discriminate].
  rewrite (clean_and_merge_supergroup_steps m df brand Hb) in Hc.
  cbv zeta in Hc.
  destruct (Pd.has_column "SUPER_GROUP" df).
  - destruct (Pd.getitem df "SUPER_GROUP"); [|discriminate].
    injection Hc as <-. rewrite !has_column_setitem, H. reflexivity.
  - destruct (Pd.has_column "SUPER_GROUP_DSCR" df).
    + destruct (Pd.getitem df "SUPER_GROUP_DSCR"); [|discriminate].
      injection Hc as <-. rewrite !has_column_setitem, H. reflexivity.
    + injection Hc as <-. rewrite has_column_setitem, H. reflexivity.
Qed.

Lemma generate_boi_suggest_shape (ogrds_df sugg : DataFrame) :
  generate_boi_suggest ogrds_df = Ok sugg ->
  exists sk so, sugg = [("SG_B1", sk); ("BOI_SUGGEST", so)] /\ NoDup sk.
Proof.
  intros Hg.
  assert (Hcols : exists keys owners,
             Pd.getitem ogrds_df "SG_B1" = Ok keys /\
             Pd.getitem ogrds_df "BRAND_OWNER_INTERNATIONAL" = Ok owners).
  { unfold generate_boi_suggest in Hg.
    destruct (Pd.getitem ogrds_df "SG_B1") as [keys|]; [|discriminate].
    destruct (Pd.getitem ogrds_df "BRAND_OWNER_INTERNATIONAL") as [owners|];
      [|discriminate].
    now exists keys, owners. }
  destruct Hcols as [keys [owners [H1 H2]]].
  rewrite (generate_boi_suggest_columns keys owners _ H1 H2) in Hg.
  injection Hg as <-. eexists. eexists. split; [reflexivity|].
  apply chosen_keys_NoDup.
Qed.

Lemma merge_keeps_no_composite (df out : DataFrame) (sk so : Series) :
  Pd.has_column "BRAND_VALIDATED" df = false ->
  merge_boi_suggest df [("SG_B1", sk); ("BOI_SUGGEST", so)] = Ok out ->
  Pd.has_column "BRAND_VALIDATED" out = false.
Proof.
  intros H. unfold merge_boi_suggest, Merge.left_merge.
  destruct (Pd.getitem df "SG_B1") as [lkeys|]; [|discriminate].
  cbn [bind Pd.getitem filter negb fst snd map].
  change (String.eqb "SG_B1" "SG_B1") with true.
  change (String.eqb "BOI_SUGGEST" "SG_B1") with false.
  cbn [bind negb filter fst snd map].
  match goal with
  | |- context [Pd.getitem ?merged "BOI_SUGGEST"] =>
      assert (Hm : Pd.has_column "BRAND_VALIDATED" merged = false)
  end.
  { rewrite has_column_app. apply orb_false_intro.
    - apply (has_column_map_rename "BRAND_VALIDATED"
               (fun l => if negb (String.eqb l "SG_B1")
                            && Pd.has_column l [("BOI_SUGGEST", so)]
                         then (l ++ "_x")%string else l)).
      intros l Hl. destruct (_ && _).
      + apply suffix_x_not_composite.
      + intros ->. apply has_column_In in Hl. congruence.
    - now destruct (Pd.has_column "BOI_SUGGEST" df). }
  match goal with
  | |- context [Pd.getitem ?merged "BOI_SUGGEST"] =>
      destruct (Pd.getitem merged "BOI_SUGGEST"); [|discriminate]
  end.
  cbn [bind]. intros [= <-]. rewrite has_column_setitem. exact Hm.
Qed.

End NoCompositeFacts.

(** X15.  A primary table without a BRAND_VALIDATED column never gets
    through the pipeline, whatever else it holds and whatever the reference
    table is: no stage before the spacing fix writes that column, and the
    spacing fix reads it. *)
Theorem process_pipeline_needs_composite
        (m : na_cast) (eu_df ogrds_df : DataFrame) :
  Pd.has_column "BRAND_VALIDATED" eu_df = false ->
  exists e, process_pipeline m eu_df ogrds_df = Raise e.
Proof.
  intros H. rewrite process_pipeline_stages.
  destruct (pipeline_through_merge m eu_df ogrds_df) as [eu3|e] eqn:E;
    [|now exists e].
  unfold pipeline_through_merge in E.
  destruct (split_brand_columns eu_df) as [eu1|] eqn:E1; [|discriminate].
  cbn [bind] in E.
  destruct (split_brand_columns ogrds_df) as [og1|]; [|discriminate].
  cbn [bind] in E.
  destruct (clean_and_merge_supergroup m eu1) as [eu2|] eqn:E2;
    [|discriminate].
  cbn [bind] in E.
  destruct (clean_and_merge_supergroup m og1) as [og2|]; [|discriminate].
  cbn [bind] in E.
  destruct (generate_boi_suggest og2) as [sugg|] eqn:E3; [|discriminate].
  cbn [bind] in E.
  destruct (generate_boi_suggest_shape _ _ E3) as [sk [so [-> _]]].
  pose proof (split_keeps_no_composite _ _ H E1) as H1.
  pose proof (clean_keeps_no_composite m _ _ H1 E2) as H2.
  pose proof (merge_keeps_no_composite _ _ _ _ H2 E) as H3.
  cbn [bind]. unfold apply_spacing_fix.
  rewrite (getitem_absent _ _ H3). eexists. reflexivity.
Qed.

Lemma process_pipeline_needs_composite_witness :
  exists e,
    process_pipeline NaAsText
      [("SUPER_GROUP", [Some "EMEA"]); ("BRAND_1", [Some "Acme"])]
      [("SUPER_GROUP", [Some "EMEA"]); ("BRAND_1", [Some "Acme"]);
       ("BRAND_OWNER_INTERNATIONAL", [Some "O1"])]
    = Raise e.
Proof.
  exact (process_pipeline_needs_composite NaAsText
           [("SUPER_GROUP", [Some "EMEA"]); ("BRAND_1", [Some "Acme"])]
           [("SUPER_GROUP", [Some "EMEA"]); ("BRAND_1", [Some "Acme"]);
            ("BRAND_OWNER_INTERNATIONAL", [Some "O1"])]
           eq_refl).
Defined.

(** * The pipeline: when it completes, and with what *)

Section StageFacts.

Lemma setitem_absent (df : DataFrame) (label : string) (col : Series) :
  Pd.has_column label df = false ->
  Pd.setitem df label col = df ++ [(label, col)].
Proof.
  unfold Pd.has_column, Pd.columns.
  induction df as [|[l c] df IH]; simpl; [reflexivity|].
  rewrite (String.eqb_sym label l). destruct (String.eqb l label);
    [discriminate|]. intros H. now rewrite (IH H).
Qed.

Lemma setitem_app_last (df : DataFrame) (label : string) (col col' : Series) :
  Pd.has_column label df = false ->
  Pd.setitem (df ++ [(label, col)]) label col' = df ++ [(label, col')].
Proof.
  unfold Pd.has_column, Pd.columns.
  induction df as [|[l c] df IH]; simpl.
  - now rewrite String.eqb_refl.
  - rewrite (String.eqb_sym label l). destruct (String.eqb l label);
      [discriminate|]. intros H. now rewrite (IH H).
Qed.

Lemma split_stage (df : DataFrame) (col : Series) :
  Pd.getitem df "BRAND_VALIDATED" = Ok col ->
  Forall (fun c => ntokens c <= 3) col ->
  Exists (fun c => ntokens c = 3) col ->
  split_brand_columns df
  = Ok (df ++ [("BOI_VALIDATED", map (part 0) col);
               ("BRAND1_VALIDATED", map (part 1) col);
               ("GBE_VALIDATED", map (part 2) col)]).
Proof.
  intros Hcol Hle Hex. rewrite (split_brand_columns_composite _ _ Hcol).
  assert (W : Ser.split_width col = 3).
  { rewrite split_width_ntokens. apply list_max_exact.
    - now apply Forall_map.
    - now apply Exists_map. }
  unfold set_columns. rewrite str_split_expand_width, W.
  now rewrite (str_split_expand_three col W).
Qed.

Lemma clean_stage (m : na_cast) (df : DataFrame) (brand sg : Series)
      (label : string) :
  Pd.getitem df "BRAND1_VALIDATED" = Ok brand ->
  label = "SUPER_GROUP" \/
  (label = "SUPER_GROUP_DSCR" /\ Pd.has_column "SUPER_GROUP" df = false) ->
  Pd.getitem df label = Ok sg ->
  Pd.has_column "BRAND_1_CLEAN" df = false ->
  Pd.has_column "SG_B1" df = false ->
  clean_and_merge_supergroup m df
  = Ok (df ++ [("BRAND_1_CLEAN", map (clean_cell m) brand);
               ("SG_B1", map (fun p => join_key (fst p) (snd p))
                             (combine sg (map (clean_cell m) brand)))]).
Proof.
  intros Hb Hl Hsg H1 H2.
  rewrite (clean_and_merge_supergroup_steps m df brand Hb). cbv zeta.
  fold (clean_cell m).
  assert (E : Pd.setitem (Pd.setitem df "BRAND_1_CLEAN"
                            (map (clean_cell m) brand)) "SG_B1"
                (Ser.add_series (Ser.add_str sg " ")
                                (map (clean_cell m) brand))
              = df ++ [("BRAND_1_CLEAN", map (clean_cell m) brand);
                       ("SG_B1", map (fun p => join_key (fst p) (snd p))
                                     (combine sg (map (clean_cell m) brand)))]).
  { rewrite (setitem_absent df "BRAND_1_CLEAN") by exact H1.
    rewrite setitem_absent
      by (rewrite has_column_app, H2; reflexivity).
    rewrite <- app_assoc. simpl. now rewrite add_series_join_key. }
  destruct Hl as [->|[-> Hno]].
  - rewrite (getitem_Ok_has_column _ _ _ Hsg), Hsg. cbn [bind]. now rewrite E.
  - rewrite Hno, (getitem_Ok_has_column _ _ _ Hsg), Hsg. cbn [bind].
    now rewrite E.
Qed.

Lemma merge_stage (n : nat) (eu_df : DataFrame) (lkeys sk so : Series) :
  rect n eu_df ->
  Pd.getitem eu_df "SG_B1" = Ok lkeys ->
  Pd.has_column "BOI_SUGGEST" eu_df = false ->
  NoDup sk ->
  exists boi,
    merge_boi_suggest eu_df [("SG_B1", sk); ("BOI_SUGGEST", so)]
    = Ok (eu_df ++ [("BOI_SUGGEST", boi)]) /\
    List.length boi = n /\ ~ In None boi.
Proof.
  intros Hr Hk Hb Hnd. unfold merge_boi_suggest, Merge.left_merge.
  rewrite Hk. cbn [bind Pd.getitem filter negb fst snd map].
  change (String.eqb "SG_B1" "SG_B1") with true.
  change (String.eqb "BOI_SUGGEST" "SG_B1") with false.
  cbn [bind negb filter fst snd map]. rewrite Hb.
  set (found := map (Merge.hits sk) lkeys).
  assert (Hlen : List.length found = n).
  { unfold found. rewrite length_map. exact (rect_getitem _ _ _ _ Hr Hk). }
  assert (Hfound : Forall (fun js => List.length js <= 1) found).
  { apply Forall_forall. intros js Hjs. apply in_map_iff in Hjs.
    destruct Hjs as [k [<- _]]. now apply hits_at_most_one. }
  assert (Hren : forall l, In l (Pd.columns eu_df) ->
                           (if negb (String.eqb l "SG_B1")
                               && Pd.has_column l [("BOI_SUGGEST", so)]
                            then (l ++ "_x")%string else l) = l).
  { intros l Hl. unfold Pd.has_column. simpl.
    destruct (String.eqb_spec l "BOI_SUGGEST") as [->|_].
    - apply has_column_In in Hl. congruence.
    - now rewrite andb_false_r. }
  match goal with
  | |- context [map ?f eu_df ++ _] => assert (Hleft : map f eu_df = eu_df)
  end.
  { clear Hk Hb. unfold rect in Hr. induction Hr as [|[l c] df Hl Hdf IH];
      [reflexivity|]. cbn [map fst snd]. rewrite IH.
    - rewrite (Hren l) by now left.
      rewrite left_column_single; [reflexivity | exact Hfound |].
      simpl in Hl. congruence.
    - intros l' Hl'. apply Hren. now right. }
  rewrite Hleft.
  rewrite getitem_app, (getitem_absent _ _ Hb). cbn [Pd.getitem].
  rewrite String.eqb_refl. cbn [bind].
  eexists. split.
  - f_equal. now apply setitem_app_last.
  - split.
    + unfold Ser.fillna. rewrite length_map.
      rewrite (right_column_single _ _ Hfound). now rewrite length_map.
    + unfold Ser.fillna. intros Hin. apply in_map_iff in Hin.
      destruct Hin as [c [E _]]. now destruct c.
Qed.

Lemma spacing_stage (df : DataFrame) (col : Series) :
  Pd.getitem df "BRAND_VALIDATED" = Ok col ->
  Pd.has_column "BRAND_VALIDATED_FIXED" df = false ->
  apply_spacing_fix df
  = Ok (df ++ [("BRAND_VALIDATED_FIXED", map fix_spacing col)]).
Proof.
  intros Hcol H. unfold apply_spacing_fix. rewrite Hcol. cbn [bind].
  now rewrite setitem_absent.
Qed.

Lemma status_values (df : DataFrame) :
  map (fun row => Some (check_gbe_match row)) (Pd.iterrows df)
  = map (fun i =>
           gbe_status
             match Pd.getitem df "BRAND1_VALIDATED" with
             | Ok col => nth i col None
             | Raise _ => None
             end
             match Pd.getitem df "GBE_VALIDATED" with
             | Ok col => nth i col None
             | Raise _ => None
             end) (seq 0 (Pd.nrows df)).
Proof.
  unfold Pd.iterrows. rewrite map_map. apply map_ext. intros i.
  now rewrite check_gbe_match_fields, !row_get_row_at.
Qed.

Lemma status_stage (n : nat) (df : DataFrame) (brand gbe : Series) :
  rect n df ->
  Pd.getitem df "BRAND1_VALIDATED" = Ok brand ->
  Pd.getitem df "GBE_VALIDATED" = Ok gbe ->
  Pd.has_column "GBE_STATUS" df = false ->
  apply_gbe_validation df
  = df ++ [("GBE_STATUS",
            map (fun p => gbe_status (fst p) (snd p)) (combine brand gbe))].
Proof.
  intros Hr Hb Hg H. unfold apply_gbe_validation.
  rewrite setitem_absent by exact H. do 3 f_equal.
  rewrite status_values, Hb, Hg, (rect_nrows n df _ _ Hr Hb).
  pose proof (rect_getitem _ _ _ _ Hr Hb) as Lb.
  pose proof (rect_getitem _ _ _ _ Hr Hg) as Lg.
  rewrite <- Lb. apply map_seq_combine. congruence.
Qed.

End StageFacts.

Section ReferenceFacts.

Lemma clean_then_suggest (m : na_cast) (df : DataFrame) :
  Pd.has_column "BRAND1_VALIDATED" df = true ->
  Pd.has_column "SUPER_GROUP" df = true \/
  Pd.has_column "SUPER_GROUP_DSCR" df = true ->
  Pd.has_column "BRAND_OWNER_INTERNATIONAL" df = true ->
  exists og2 sk so,
    clean_and_merge_supergroup m df = Ok og2 /\
    generate_boi_suggest og2 = Ok [("SG_B1", sk); ("BOI_SUGGEST", so)] /\
    NoDup sk.
Proof.
  intros Hb Hs Ho. destruct (getitem_present _ _ Hb) as [brand Hbrand].
  rewrite (clean_and_merge_supergroup_steps m df brand Hbrand). cbv zeta.
  assert (Hend : forall keys,
             exists og2 sk so,
               Ok (Pd.setitem
                     (Pd.setitem df "BRAND_1_CLEAN"
                        (map (fun c => Ser.str_replace_trailing
                                         (Ser.astype_str m (Ser.str_extract c)))
                             brand)) "SG_B1" keys) = Ok og2 /\
               generate_boi_suggest og2
               = Ok [("SG_B1", sk); ("BOI_SUGGEST", so)] /\
               NoDup sk).
  { intros keys.
    set (og2 := Pd.setitem (Pd.setitem df "BRAND_1_CLEAN" _) "SG_B1" keys).
    assert (H1 : Pd.has_column "SG_B1" og2 = true)
      by (unfold og2; rewrite has_column_setitem;
          now rewrite String.eqb_refl).
    assert (H2 : Pd.has_column "BRAND_OWNER_INTERNATIONAL" og2 = true)
      by (unfold og2; rewrite !has_column_setitem, Ho; reflexivity).
    destruct (getitem_present _ _ H1) as [ks Hks].
    destruct (getitem_present _ _ H2) as [os Hos].
    exists og2. eexists. eexists. split; [reflexivity|].
    rewrite (generate_boi_suggest_columns ks os _ Hks Hos).
    split; [reflexivity | apply chosen_keys_NoDup]. }
  destruct (Pd.has_column "SUPER_GROUP" df) eqn:E1.
  - destruct (getitem_present _ _ E1) as [sg ->]. cbn [bind]. apply Hend.
  - destruct Hs as [Hs|Hs]; [discriminate|]. rewrite Hs.
    destruct (getitem_present _ _ Hs) as [sg ->]. cbn [bind]. apply Hend.
Qed.

Lemma reference_stage (m : na_cast) (ogrds_df : DataFrame) :
  reference_ready ogrds_df ->
  exists og1 og2 sk so,
    split_brand_columns ogrds_df = Ok og1 /\
    clean_and_merge_supergroup m og1 = Ok og2 /\
    generate_boi_suggest og2 = Ok [("SG_B1", sk); ("BOI_SUGGEST", so)] /\
    NoDup sk.
Proof.
  intros [_ [Hbrand [Hsuper [_ Howner]]]].
  assert (Hog1 : exists og1,
             split_brand_columns ogrds_df = Ok og1 /\
             Pd.has_column "BRAND1_VALIDATED" og1 = true /\
             (forall l, Pd.has_column l ogrds_df = true ->
                        Pd.has_column l og1 = true)).
  { destruct Hbrand as [[col [Hcol [Hle [Hex _]]]]|[Hno [brand [Hb1 _]]]].
    - rewrite (split_stage _ _ Hcol Hle Hex). eexists.
      split; [reflexivity|]. split.
      + rewrite has_column_app. apply orb_true_iff. now right.
      + intros l Hl. rewrite has_column_app, Hl. reflexivity.
    - unfold split_brand_columns.
      rewrite Hno, (getitem_Ok_has_column _ _ _ Hb1), Hb1.
      cbn [bind]. eexists.
      split; [reflexivity|]. split.
      + rewrite has_column_setitem. now rewrite String.eqb_refl.
      + intros l Hl. rewrite has_column_setitem, Hl. apply orb_true_r. }
  destruct Hog1 as [og1 [H1 [Hb Hkeep]]].
  destruct (clean_then_suggest m og1 Hb) as [og2 [sk [so [H2 [H3 H4]]]]].
  - destruct Hsuper as [H|H]; [left | right]; now apply Hkeep.
  - now apply Hkeep.
  - exists og1, og2, sk, so. auto.
Qed.

End ReferenceFacts.

(** X16.  The pipeline completes on a primary table with distinct labels
    whose columns have one length, that has a BRAND_VALIDATED column
    splitting exactly three wide and a super-group column (SUPER_GROUP, or
    SUPER_GROUP_DSCR in its absence) holding a text value, and that carries
    none of the eight labels the pipeline writes, together with a reference
    table with distinct labels that has the owner column, a super-group
    column, the one that is read holding a text value, and either a
    BRAND_VALIDATED column splitting exactly three wide while the table
    carries none of the labels of the three parts, or no BRAND_VALIDATED
    column and a BRAND_1 column holding a text value.  Its result is the
    primary table, rows and columns as they were, followed by the eight
    derived columns in the order the stages write them: the three parts,
    the cleaned brand name, the join key, the suggested owner (never
    missing), the fixed brand string and the GBE status. *)
Theorem process_pipeline_completes
        (m : na_cast) (n : nat) (eu_df ogrds_df : DataFrame)
        (col sg : Series) (super : string) :
  distinct_labels eu_df ->
  rect n eu_df ->
  Pd.getitem eu_df "BRAND_VALIDATED" = Ok col ->
  Forall (fun c => ntokens c <= 3) col ->
  Exists (fun c => ntokens c = 3) col ->
  super = "SUPER_GROUP" \/
  (super = "SUPER_GROUP_DSCR" /\ Pd.has_column "SUPER_GROUP" eu_df = false) ->
  Pd.getitem eu_df super = Ok sg ->
  text_column sg ->
  (forall l, In l derived_labels -> Pd.has_column l eu_df = false) ->
  reference_ready ogrds_df ->
  exists boi,
    process_pipeline m eu_df ogrds_df
    = Ok (eu_df ++
          [("BOI_VALIDATED", map (part 0) col);
           ("BRAND1_VALIDATED", map (part 1) col);
           ("GBE_VALIDATED", map (part 2) col);
           ("BRAND_1_CLEAN", map (clean_cell m) (map (part 1) col));
           ("SG_B1",
            map (fun p => join_key (fst p) (snd p))
                (combine sg (map (clean_cell m) (map (part 1) col))));
           ("BOI_SUGGEST", boi);
           ("BRAND_VALIDATED_FIXED", map fix_spacing col);
           ("GBE_STATUS",
            map (fun p => gbe_status (fst p) (snd p))
                (combine (map (part 1) col) (map (part 2) col)))]) /\
    List.length boi = n /\ ~ In None boi.
Proof.
  intros _ Hr Hcol Hle Hex Hsuper Hsg _ Hd Href.
  assert (Hn : List.length col = n) by exact (rect_getitem _ _ _ _ Hr Hcol).
  assert (Hsgn : List.length sg = n) by exact (rect_getitem _ _ _ _ Hr Hsg).
  assert (Habs : forall l tail,
             In l derived_labels ->
             Pd.has_column l (eu_df ++ tail) = Pd.has_column l tail).
  { intros l tail Hl. now rewrite has_column_app, (Hd l Hl). }
  assert (Hget : forall l tail,
             In l derived_labels ->
             Pd.getitem (eu_df ++ tail) l = Pd.getitem tail l).
  { intros l tail Hl. now rewrite getitem_app, (getitem_absent _ _ (Hd l Hl)). }
  assert (Hkeep : forall l c tail,
             Pd.getitem eu_df l = Ok c -> Pd.getitem (eu_df ++ tail) l = Ok c).
  { intros l c tail H. now rewrite getitem_app, H. }
  destruct (reference_stage m ogrds_df Href)
    as [og1 [og2 [sk [so [Ho1 [Ho2 [Ho3 Hnd]]]]]]].
  unfold process_pipeline.
  rewrite (split_stage _ _ Hcol Hle Hex). cbn [bind]. rewrite Ho1. cbn [bind].
  rewrite (clean_stage m _ (map (part 1) col) sg super).
  2: { rewrite Hget by (simpl; tauto). reflexivity. }
  2: { destruct Hsuper as [->|[-> Hno]]; [now left | right].
       split; [reflexivity|]. rewrite has_column_app, Hno. reflexivity. }
  2: { now apply Hkeep. }
  2: { rewrite Habs by (simpl; tauto). reflexivity. }
  2: { rewrite Habs by (simpl; tauto). reflexivity. }
  cbn [bind]. rewrite Ho2. cbn [bind]. rewrite Ho3. cbn [bind].
  rewrite <- app_assoc. cbn [app].
  match goal with
  | |- context [merge_boi_suggest ?eu2 _] =>
      destruct (merge_stage n eu2
                  (map (fun p => join_key (fst p) (snd p))
                       (combine sg (map (clean_cell m) (map (part 1) col))))
                  sk so) as [boi [Hm [Hlen Hnn]]]
  end.
  { apply rect_app; [exact Hr|]. repeat constructor; simpl;
      rewrite ?length_map, ?length_combine, ?length_map; lia. }
  { rewrite Hget by (simpl; tauto). reflexivity. }
  { rewrite Habs by (simpl; tauto). reflexivity. }
  { exact Hnd. }
  rewrite Hm. cbn [bind]. rewrite <- app_assoc. cbn [app].
  rewrite (spacing_stage _ col).
  2: { now apply Hkeep. }
  2: { rewrite Habs by (simpl; tauto). reflexivity. }
  cbn [bind]. rewrite <- app_assoc. cbn [app].
  rewrite (status_stage n _ (map (part 1) col) (map (part 2) col)).
  2: { apply rect_app; [exact Hr|]. repeat constructor; simpl;
         rewrite ?length_map, ?length_combine, ?length_map; lia. }
  2: { rewrite Hget by (simpl; tauto). reflexivity. }
  2: { rewrite Hget by (simpl; tauto). reflexivity. }
  2: { rewrite Habs by (simpl; tauto). reflexivity. }
  rewrite <- app_assoc. cbn [app].
  exists boi. split; [reflexivity | split; assumption].
Qed.

Lemma process_pipeline_completes_witness :
  exists boi,
    process_pipeline NaAsText
      [("SUPER_GROUP", [Some "EMEA"; Some "EMEA"]);
       ("BRAND_VALIDATED", [Some "O1;Acme(x);Acme Europe"; Some "O2;Zed"])]
      [("SUPER_GROUP", [Some "EMEA"]); ("BRAND_1", [Some "Acme"]);
       ("BRAND_OWNER_INTERNATIONAL", [Some "O9"])]
    = Ok [("SUPER_GROUP", [Some "EMEA"; Some "EMEA"]);
          ("BRAND_VALIDATED", [Some "O1;Acme(x);Acme Europe"; Some "O2;Zed"]);
          ("BOI_VALIDATED", [Some "O1"; Some "O2"]);
          ("BRAND1_VALIDATED", [Some "Acme(x)"; Some "Zed"]);
          ("GBE_VALIDATED", [Some "Acme Europe"; None]);
          ("BRAND_1_CLEAN", [Some "Acme"; Some "Zed"]);
          ("SG_B1", [Some "EMEA Acme"; Some "EMEA Zed"]);
          ("BOI_SUGGEST", boi);
          ("BRAND_VALIDATED_FIXED",
           [Some "O1;Acme (x);Acme Europe"; Some "O2;Zed"]);
          ("GBE_STATUS", [Some "Correct GBE"; Some "Missing Data"])].
Proof.
  destruct (process_pipeline_completes NaAsText 2
              [("SUPER_GROUP", [Some "EMEA"; Some "EMEA"]);
               ("BRAND_VALIDATED",
                [Some "O1;Acme(x);Acme Europe"; Some "O2;Zed"])]
              [("SUPER_GROUP", [Some "EMEA"]); ("BRAND_1", [Some "Acme"]);
               ("BRAND_OWNER_INTERNATIONAL", [Some "O9"])]
              [Some "O1;Acme(x);Acme Europe"; Some "O2;Zed"]
              [Some "EMEA"; Some "EMEA"] "SUPER_GROUP")
    as [boi [H _]].
  - unfold distinct_labels. simpl.
    constructor; [intros [E|[]]; discriminate E|].
    constructor; [intros [] | constructor].
  - repeat constructor.
  - reflexivity.
  - repeat constructor.
  - apply Exists_cons_hd. reflexivity.
  - now left.
  - reflexivity.
  - apply Exists_cons_hd. discriminate.
  - intros l Hl. simpl in Hl.
    repeat (destruct Hl as [<-|Hl]; [reflexivity|]). destruct Hl.
  - split; [|split; [|split; [|split]]].
    + unfold distinct_labels. simpl.
      constructor; [intros [E|[E|[]]]; discriminate E|].
      constructor; [intros [E|[]]; discriminate E|].
      constructor; [intros [] | constructor].
    + right. split; [reflexivity|]. exists [Some "Acme"].
      split; [reflexivity | apply Exists_cons_hd; discriminate].
    + now left.
    + split.
      * intros sg [= <-]. apply Exists_cons_hd. discriminate.
      * intros E. discriminate E.
    + reflexivity.
  - exists boi. exact H.
Defined.

(** * Validation stage: the spacing fix settles in two passes *)

Section TwoPassFacts.
Local Open Scope string_scope.

Lemma first_char_sub_paren (s : string) :
  first_char (Re.sub_paren s) = first_char s.
Proof.
  destruct s as [|c [|d s]]; try reflexivity. rewrite sub_paren_step.
  now destruct (negb (Py.isspace c) && Ascii.eqb d "(").
Qed.

Lemma sub_paren_once (s : string) :
  (forall prev, once_from prev (Re.sub_paren s) = true) /\
  (forall c prev, once_from prev (Re.sub_paren (String c s)) = true).
Proof.
  induction s as [|d s [IH1 IH2]].
  - split; [reflexivity | intros c prev; reflexivity].
  - split; [intros prev; apply IH2|]. intros c prev. rewrite sub_paren_step.
    destruct (negb (Py.isspace c) && Ascii.eqb d "(") eqn:E.
    + cbn [once_from first_char].
      change (Ascii.eqb " " "(") with false. rewrite andb_false_r.
      change (Py.isspace " ") with true. cbn [negb andb].
      rewrite first_char_sub_paren, IH1.
      destruct (first_char s) as [e|]; [|reflexivity].
      change (Py.isspace "(") with false. cbn [negb andb].
      change (Ascii.eqb "(" "(") with true. cbn [andb].
      now destruct (Ascii.eqb e "(").
    + cbn [once_from]. rewrite first_char_sub_paren. cbn [first_char].
      rewrite E. apply IH2.
Qed.

Lemma once_settles (s : string) :
  (forall prev, once_from prev s = true ->
                settled (Re.sub_paren s) = true) /\
  (forall c prev, once_from prev (String c s) = true ->
                  settled (Re.sub_paren (String c s)) = true).
Proof.
  induction s as [|d s [IH1 IH2]].
  - split; [reflexivity | intros c prev _; reflexivity].
  - split; [intros prev; apply IH2|]. intros c prev H.
    cbn [once_from first_char] in H. rewrite sub_paren_step.
    destruct (negb (Py.isspace c) && Ascii.eqb d "(") eqn:E.
    + apply andb_prop in H. destruct H as [Hc Hd].
      apply andb_prop in Hc. destruct Hc as [Hc _].
      apply Ascii.eqb_eq in Hc. subst c.
      apply andb_prop in E. destruct E as [_ E]. apply Ascii.eqb_eq in E.
      subst d. cbn [once_from] in Hd. apply andb_prop in Hd.
      destruct Hd as [Hpair Hs].
      cbn [settled first_char].
      change (Ascii.eqb " " "(") with false.
      change (Py.isspace " ") with true. change (Py.isspace "(") with false.
      cbn [negb orb andb].
      rewrite first_char_sub_paren, (IH1 _ Hs).
      destruct (first_char s) as [e|]; [|reflexivity].
      change (Py.isspace "(") with false in Hpair. cbn [negb andb] in Hpair.
      destruct (Ascii.eqb e "("); [|reflexivity].
      change (Ascii.eqb "(" "(") with true in Hpair. discriminate.
    + apply andb_prop in H. destruct H as [_ Hd].
      cbn [settled]. rewrite first_char_sub_paren. cbn [first_char].
      rewrite (IH2 d (Some c) Hd), andb_true_r.
      destruct (Py.isspace c); [reflexivity|]. simpl in E. now rewrite E.
Qed.

Lemma sub_paren_twice_settled (t : string) :
  settled (Re.sub_paren (Re.sub_paren t)) = true.
Proof.
  apply (proj1 (once_settles _) None). apply (proj1 (sub_paren_once t)).
Qed.

Lemma occurs_remove_blanks (x : ascii) (s : string) :
  x <> " "%char -> (occurs x (remove_blanks s) <-> occurs x s).
Proof.
  intros Hx. induction s as [|c s IH]; simpl; [reflexivity|].
  destruct (Ascii.eqb_spec c " ") as [->|Hc]; simpl; rewrite IH;
    [|reflexivity]. split; [now right | intros [E|E]; [congruence | exact E]].
Qed.

Lemma sub_paren_no_sep (t : string) :
  ~ occurs ";" t -> ~ occurs ";" (Re.sub_paren t).
Proof.
  assert (Hsep : ";"%char <> " "%char) by discriminate.
  intros H E. apply H.
  apply (proj2 (occurs_remove_blanks ";" _ Hsep)) in E.
  rewrite (proj1 (sub_paren_blanks t)) in E.
  exact (proj1 (occurs_remove_blanks ";" _ Hsep) E).
Qed.

Lemma fix_spacing_tokens (parts : list string) :
  parts <> [] -> Forall (fun t => ~ occurs ";" t) parts ->
  fix_spacing (Some (Py.join ";" parts))
  = Some (Py.join ";" (map Re.sub_paren parts)).
Proof.
  intros Hne Hall. unfold fix_spacing. now rewrite split_join.
Qed.

End TwoPassFacts.

(** X17.  Two passes of the spacing fix always settle a value: a third
    pass changes nothing any more, on any value. *)
Theorem fix_spacing_settles_in_two (val : cell) :
  fix_spacing (fix_spacing (fix_spacing val)) = fix_spacing (fix_spacing val).
Proof.
  destruct val as [s|]; [|reflexivity].
  assert (H1 : fix_spacing (Some s)
               = Some (Py.join ";" (map Re.sub_paren (Py.split ";" s))))
    by reflexivity.
  assert (N : forall l : list string, l <> [] -> map Re.sub_paren l <> [])
    by (intros [|x l] H; [congruence | discriminate]).
  assert (S : forall l, Forall (fun t => ~ occurs ";" t) l ->
                        Forall (fun t => ~ occurs ";" t) (map Re.sub_paren l)).
  { intros l Hl. apply Forall_map. revert Hl. apply Forall_impl.
    exact sub_paren_no_sep. }
  pose proof (split_not_nil ";" s) as Hne.
  pose proof (split_no_sep ";" s) as Hsep.
  rewrite H1.
  rewrite (fix_spacing_tokens _ (N _ Hne) (S _ Hsep)).
  rewrite (fix_spacing_tokens _ (N _ (N _ Hne)) (S _ (S _ Hsep))).
  do 2 f_equal. rewrite !map_map. apply map_ext. intros t.
  apply settled_fixed. apply sub_paren_twice_settled.
Qed.
